(** * Click-to-lead attribution lambda: model and properties

    Shallow embedding of [src/app/aws-lambda/lambda_function.py].

    - Python values that travel through the handlers are [PyVal]s, dicts are
      [gmap]s, the DynamoDB table is a [gmap] from the sort key [expires_at]
      to the stored attribute map (the partition key is the literal "click"
      everywhere in the source).
    - A handler is a computation in the monad [M]: it threads the table and
      the log of calls made to the table, the CRM and the ads platform, and
      either returns a value or raises a Python exception.
    - What the outside world answers to one invocation (the clock reading and
      which external calls raise) is gathered in [Env].
    - Logging is not modelled. *)

From stdpp Require Import gmap strings list fin_maps.
From Stdlib Require Import ZArith Lia Ascii.

Local Open Scope string_scope.
Local Open Scope Z_scope.

(** ** Python values and exceptions *)

(** JSON scalars and DynamoDB attribute values as Python sees them. *)
Inductive PyVal :=
| PNone
| PBool (b : bool)
| PInt (n : Z)
| PStr (s : string).

#[global] Instance PyVal_eq_dec : EqDecision PyVal.
Proof. solve_decision. Defined.

(** [bool(v)] *)
Definition truthy (v : PyVal) : bool :=
  match v with
  | PNone => false
  | PBool b => b
  | PInt n => negb (n =? 0)
  | PStr s => negb (bool_decide (s = ""))
  end.

(** [a or b] *)
Definition py_or (a b : PyVal) : PyVal := if truthy a then a else b.

(** [d.get(k)] on a dict of values: [None] when the key is missing. *)
Definition dict_get (d : gmap string PyVal) (k : string) : PyVal :=
  default PNone (d !! k).

(** Exception classes that matter to the handlers. [RuntimeError] stands for
    the class and its subclasses, the only ones an [except RuntimeError]
    clause catches; [OtherException] is any class not listed (botocore's
    [ClientError], [ValueError], ...). *)
Inductive Exn :=
| RuntimeError
| KeyError
| TypeError
| AttributeError
| OtherException.

#[global] Instance Exn_eq_dec : EqDecision Exn.
Proof. solve_decision. Defined.

Inductive Result (A : Type) :=
| Ok (a : A)
| Raise (e : Exn).
Arguments Ok {A} a.
Arguments Raise {A} e.

(** ** Conversion types *)

(** Modelled from the spec: [GoogleAdsService.ConversionType] is declared in
    [services/google_ads_service.py], which is not part of the sources at
    hand. The spec describes it as a closed enumeration looked up by name;
    the handler names one member, [MESSAGE_RECEIVED]. The other members are
    known here only by their names. *)
Inductive ConversionType :=
| MESSAGE_RECEIVED
| OtherConversion (name : string).

#[global] Instance ConversionType_eq_dec : EqDecision ConversionType.
Proof. solve_decision. Defined.

(** ** The click-log table *)

(** A stored item is its attribute map. *)
Abbreviation Item := (gmap string PyVal).
(** The table, keyed by the sort key [expires_at]. *)
Abbreviation Store := (gmap Z Item).

(** ** Calls that leave the process *)

Inductive Call :=
| TableQuery
| TablePutItem (item : Item)
| TableUpdateItem (expires_at : PyVal)
| KommoUpdateLeadOrganic (lead_id : string)
| KommoUpdateLeadCpc (lead_id : string) (gclid gbraid page_path : PyVal)
| KommoConstructRawLead (lead_id : string)
| AdsUploadOfflineConversion (raw_lead_of : string) (ct : ConversionType)
| AdsUploadOfflineConversionAdjustment (ct : ConversionType) (lead_id : string).

#[global] Instance Call_eq_dec : EqDecision Call.
Proof. solve_decision. Defined.

(** ** The handler monad *)

Record World := {
  table : Store;
  calls : list Call;
}.

Definition M (A : Type) : Type := World → Result A * World.

Definition ret {A} (a : A) : M A := λ w, (Ok a, w).

Definition raise {A} (e : Exn) : M A := λ w, (Raise e, w).

Definition bind {A B} (m : M A) (k : A → M B) : M B :=
  λ w, match m w with
       | (Ok a, w') => k a w'
       | (Raise e, w') => (Raise e, w')
       end.

Notation "'let*' x := m 'in' k" := (bind m (λ x, k))
  (at level 10, x name, m at level 100, k at level 200, only parsing).
Notation "m ;; k" := (bind m (λ _, k))
  (at level 100, k at level 200, right associativity, only parsing).

Definition lift {A} (r : Result A) : M A := λ w, (r, w).

(** [try: body / except RuntimeError: handler] *)
Definition try_except_RuntimeError {A} (body handler : M A) : M A :=
  λ w, match body w with
       | (Raise RuntimeError, w') => handler w'
       | r => r
       end.

(** A call is logged when it is made, whether it then raises or not. *)
Definition log_call (c : Call) : M unit :=
  λ w, (Ok tt, {| table := table w; calls := calls w ++ [c] |}).

Definition outcome (o : option Exn) : M unit :=
  match o with
  | None => ret tt
  | Some e => raise e
  end.

Definition get_table : M Store := λ w, (Ok (table w), w).

Definition set_table (s : Store) : M unit :=
  λ w, (Ok tt, {| table := s; calls := calls w |}).

(** ** Table operations

    The three DynamoDB operations the source uses, as functions on the table.
    Each is one atomic request to the store. *)

(** [put_item(Item=it)]: writes [it] under its key, replacing whatever item
    was stored under that key. *)
Definition put_item (k : Z) (it : Item) (s : Store) : Store := <[k := it]> s.

(** The item that [update_item] starts from when the key is not in the
    table: DynamoDB's UpdateItem creates it, holding the key attributes. *)
Definition key_item (k : Z) : Item :=
  list_to_map [("pk", PStr "click"); ("expires_at", PInt k)].

(** [update_item(Key={"pk": "click", "expires_at": k},
                 UpdateExpression="SET matched = :matched",
                 ExpressionAttributeValues={":matched": True})].
    The request carries no ConditionExpression. *)
Definition update_item (k : Z) (s : Store) : Store :=
  <[k := <["matched" := PBool true]> (default (key_item k) (s !! k))]> s.

(** The item with the greatest sort key: what a query of the partition with
    [ScanIndexForward=False, Limit=1] reads. *)
Definition newest (s : Store) : option (Z * Item) :=
  map_fold (λ k it acc,
              match acc with
              | Some (k', it') =>
                  if bool_decide (k' < k) then Some (k, it) else Some (k', it')
              | None => Some (k, it)
              end) None s.

(** [Attr("matched").eq(False)] *)
Definition unmatched (it : Item) : bool :=
  bool_decide (it !! "matched" = Some (PBool false)).

(** [query(KeyConditionExpression=Key("pk").eq("click"),
          FilterExpression=Attr("matched").eq(False),
          ScanIndexForward=False, Limit=1)["Items"]].
    DynamoDB applies [Limit] to the items it reads and the filter to what
    was read, so the answer is the newest item when it is unmatched and
    nothing otherwise. *)
Definition query (s : Store) : list Item :=
  match newest s with
  | Some (_, it) => if unmatched it then [it] else []
  | None => []
  end.

(** What [newest] is to return: nothing on the empty table, else an item of
    the table whose key no other key exceeds. *)
Definition is_newest (s : Store) (r : option (Z * Item)) : Prop :=
  match r with
  | None => s = ∅
  | Some (k, it) => s !! k = Some it ∧ ∀ k', is_Some (s !! k') → k' ≤ k
  end.

(** ** Requests and responses *)

Record Response := {
  statusCode : Z;
  message : string;
}.

#[global] Instance Response_eq_dec : EqDecision Response.
Proof. solve_decision. Defined.

(** What [json.loads] gives: a dict of scalars, or something that is not a
    dict. *)
Inductive Json :=
| JObject (d : gmap string PyVal)
| JOther.

(** The event's ["body"]. Decoding is outside the model, so a text body
    carries what the two decoders of the source make of it:
    [json] is [json.loads(body)] and [form] is
    [dict(parse_qsl(unquote(base64.b64decode(body).decode("utf-8"))))].
    [BodyNone] is a body that is [None]. *)
Inductive Body :=
| BodyNone
| BodyText (json : Result Json) (form : Result (gmap string string)).

Record Event := {
  rawPath : option string;
  method : string;
  queryStringParameters : option (gmap string string);
  body : Body;
}.

(** What the world answers during one invocation: the reading of
    [datetime.now()] in microseconds since the epoch, and for each external
    operation whether it raises. *)
Record Env := {
  now : Z;
  query_exn : option Exn;
  put_item_exn : option Exn;
  update_item_exn : option Exn;
  kommo_update_lead_exn : option Exn;
  kommo_construct_raw_lead_exn : option Exn;
  upload_offline_conversion_exn : option Exn;
  upload_offline_conversion_adjustment_exn : option Exn;
}.

(** ** Time

    A [datetime] is the number of microseconds since the epoch it denotes
    (the local zone is taken to have a fixed offset, as on the lambda
    runtime, so adding a [timedelta] to a naive local time adds as much to
    the instant). [timestamp()] yields the seconds as a float; at
    microsecond resolution [int()] of it is the whole number of seconds,
    rounded towards zero. *)

Definition timedelta_minutes (m : Z) : Z := m * 60 * 1000000.

Definition int_timestamp (d : Z) : Z := Z.quot d 1000000.

(** [float <= number], the float being [d.timestamp()]. A [bool] compares as
    0 or 1; [None] and strings are not ordered against a float. *)
Definition timestamp_le (d : Z) (v : PyVal) : Result bool :=
  match v with
  | PInt n => Ok (d <=? n * 1000000)
  | PBool b => Ok (d <=? Z.b2z b * 1000000)
  | PNone | PStr _ => Raise TypeError
  end.

(** ** Strings *)

Definition upper_ascii (c : ascii) : ascii :=
  let n := nat_of_ascii c in
  if ((97 <=? n) && (n <=? 122))%nat then ascii_of_nat (n - 32) else c.

(** [s.upper()], on ASCII text. *)
Fixpoint upper (s : string) : string :=
  match s with
  | EmptyString => EmptyString
  | String c r => String (upper_ascii c) (upper r)
  end.

(** ** The handlers *)

Section Handlers.

(** [CLICK_LOG_TTL_MINUTES], read from the process environment. *)
Variable CLICK_LOG_TTL_MINUTES : Z.

(** The names of the members of [ConversionType] other than
    [MESSAGE_RECEIVED]. *)
Variable conversion_names : list string.

(** [GoogleAdsService.ConversionType[name]] *)
Definition ConversionType_getitem (name : string) : Result ConversionType :=
  if bool_decide (name = "MESSAGE_RECEIVED") then Ok MESSAGE_RECEIVED
  else if bool_decide (name ∈ conversion_names) then Ok (OtherConversion name)
  else Raise KeyError.

Variable env : Env.

(** *** Calls to the collaborators *)

Definition table_query : M (list Item) :=
  log_call TableQuery;;
  outcome (query_exn env);;
  let* s := get_table in
  ret (query s).

Definition table_put_item (it : Item) : M unit :=
  log_call (TablePutItem it);;
  outcome (put_item_exn env);;
  match it !! "expires_at" with
  | Some (PInt k) => let* s := get_table in set_table (put_item k it s)
  | _ => raise OtherException
  end.

(** A key that is not a number is refused by the store. *)
Definition table_update_item (expires_at : PyVal) : M unit :=
  log_call (TableUpdateItem expires_at);;
  outcome (update_item_exn env);;
  match expires_at with
  | PInt k => let* s := get_table in set_table (update_item k s)
  | _ => raise OtherException
  end.

Definition kommo_update_lead_organic (lead_id : string) : M unit :=
  log_call (KommoUpdateLeadOrganic lead_id);;
  outcome (kommo_update_lead_exn env).

Definition kommo_update_lead_cpc (lead_id : string)
    (gclid gbraid page_path : PyVal) : M unit :=
  log_call (KommoUpdateLeadCpc lead_id gclid gbraid page_path);;
  outcome (kommo_update_lead_exn env).

(** The raw lead is opaque to the handlers; it is named by the lead it was
    built for. *)
Definition kommo_construct_raw_lead (lead_id : string) : M string :=
  log_call (KommoConstructRawLead lead_id);;
  outcome (kommo_construct_raw_lead_exn env);;
  ret lead_id.

Definition upload_offline_conversion (raw_lead : string)
    (ct : ConversionType) : M unit :=
  log_call (AdsUploadOfflineConversion raw_lead ct);;
  outcome (upload_offline_conversion_exn env).

Definition upload_offline_conversion_adjustment (ct : ConversionType)
    (lead_id : string) : M unit :=
  log_call (AdsUploadOfflineConversionAdjustment ct lead_id);;
  outcome (upload_offline_conversion_adjustment_exn env).

(** *** Lead identifiers *)

Definition decode_form (ev : Event) : Result (gmap string string) :=
  match body ev with
  | BodyNone => Raise TypeError
  | BodyText _ form => form
  end.

Definition payload_getitem (ev : Event) (k : string) : M string :=
  let* payload := lift (decode_form ev) in
  match payload !! k with
  | Some v => ret v
  | None => raise KeyError
  end.

Definition extract_lead_id (ev : Event) : M string :=
  payload_getitem ev "leads[status][0][id]".

Definition extract_incoming_lead_id (ev : Event) : M string :=
  payload_getitem ev "leads[add][0][id]".

(** *** Click logs *)

Definition response (code : Z) (msg : string) : M (option Response) :=
  ret (Some {| statusCode := code; message := msg |}).

Definition click_item (ev : gmap string PyVal) (created_at expires_at : Z)
    : Item :=
  list_to_map
    [("pk", PStr "click");
     ("page_path", dict_get ev "page_path");
     ("gclid", dict_get ev "gclid");
     ("gbraid", dict_get ev "gbraid");
     ("created_at", PInt (int_timestamp created_at));
     ("expires_at", PInt (int_timestamp expires_at));
     ("matched", PBool false)].

Definition persist_clicklog_to_db (ev : gmap string PyVal)
    : M (option Response) :=
  let created_at := now env in
  let expires_at := created_at + timedelta_minutes CLICK_LOG_TTL_MINUTES in
  try_except_RuntimeError
    (table_put_item (click_item ev created_at expires_at);;
     response 200 "Click log persisted successfully.")
    (response 500 "Something went wrong while persisting the click log.").

(** [event["body"] or {}] hands a dict to [json.loads] when the body is
    [None], which [json.loads] refuses. *)
Definition json_loads_body (ev : Event) : Result Json :=
  match body ev with
  | BodyNone => Raise TypeError
  | BodyText json _ => json
  end.

Definition click_log_handler (ev : Event) : M (option Response) :=
  let* parsed := lift (json_loads_body ev) in
  match parsed with
  | JOther => raise AttributeError
  | JObject b =>
      let gclid := dict_get b "gclid" in
      let gbraid := dict_get b "gbraid" in
      if negb (truthy (py_or gclid gbraid)) then
        response 400 "Missing required parameter gclid and gbraid"
      else persist_clicklog_to_db b
  end.

(** *** Lead updates *)

Definition item_getitem (it : Item) (k : string) : M PyVal :=
  match it !! k with
  | Some v => ret v
  | None => raise KeyError
  end.

Definition update_lead (items : list Item) (conversion_type : ConversionType)
    (lead_id : string) : M (option Response) :=
  match items with
  | [] =>
      try_except_RuntimeError
        (kommo_update_lead_organic lead_id;;
         response 200 "Lead updated with organic source.")
        (response 500 "Lead with organic source could not be updated.")
  | item0 :: _ =>
      let* bound := item_getitem item0 "expires_at" in
      let* alive := lift (timestamp_le (now env) bound) in
      if alive then
        let* expires_at := item_getitem item0 "expires_at" in
        let* gclid := item_getitem item0 "gclid" in
        let gbraid := dict_get item0 "gbraid" in
        let* page_path := item_getitem item0 "page_path" in
        try_except_RuntimeError
          (table_update_item expires_at;;
           kommo_update_lead_cpc lead_id gclid gbraid page_path;;
           let* raw_lead := kommo_construct_raw_lead lead_id in
           upload_offline_conversion raw_lead conversion_type;;
           response 200 "Lead updated with matched gclid.")
          (response 500 "Lead with cpc source could not be updated.")
      else
        (* the function ends here without a return statement *)
        ret None
  end.

Definition update_lead_handler (conversion_type : ConversionType)
    (ev : Event) : M (option Response) :=
  let* items := table_query in
  let* lead_id := extract_incoming_lead_id ev in
  update_lead items conversion_type lead_id.

(** *** Conversion uploads *)

Definition upload_conversion_handler (ev : Event)
    (conversion_type : ConversionType) (lead_id : option string)
    : M (option Response) :=
  let* lead_id :=
    match lead_id with
    | None => extract_lead_id ev
    | Some l => ret l
    end in
  try_except_RuntimeError
    (let* raw_lead := kommo_construct_raw_lead lead_id in
     upload_offline_conversion raw_lead conversion_type;;
     response 200 "Conversion uploaded successfully.")
    (response 500 "Something went wrong while persisting the click log.").

Definition upload_conversion_adjustment_handler (ev : Event)
    (conversion_type : ConversionType) : M (option Response) :=
  try_except_RuntimeError
    (let* lead_id := extract_incoming_lead_id ev in
     upload_offline_conversion_adjustment conversion_type lead_id;;
     response 200 "Conversion adjustment uploaded successfully.")
    (response 500
       "Something went wrong while uploading the click conversion adjustment.").

(** *** Entry point *)

(** [event.get("queryStringParameters", {})] *)
Definition query_string_params (ev : Event) : gmap string string :=
  default ∅ (queryStringParameters ev).

(** [query_string_params.get("is_adjustment") == "True"] *)
Definition is_conversion_adjustment (ev : Event) : bool :=
  bool_decide (query_string_params ev !! "is_adjustment" = Some "True").

(** [query_string_params.get("is_manual") == "True"] *)
Definition is_manual_import (ev : Event) : bool :=
  bool_decide (query_string_params ev !! "is_manual" = Some "True").

(** [ConversionType[query_string_params.get("conversion_type").upper()]];
    [None] has no [upper]. *)
Definition conversion_type_of (ev : Event) : Result ConversionType :=
  match query_string_params ev !! "conversion_type" with
  | None => Raise AttributeError
  | Some conversion_type_key =>
      ConversionType_getitem (upper conversion_type_key)
  end.

Definition lambda_handler (ev : Event) : M (option Response) :=
  let path := default "/" (rawPath ev) in
  if bool_decide (path = "/outbound-click-logs")
     && bool_decide (method ev = "POST")
  then click_log_handler ev
  else if bool_decide (path = "/update-lead")
          && bool_decide (method ev = "POST")
  then
    let* conversion_type := lift (conversion_type_of ev) in
    if is_conversion_adjustment ev then
      upload_conversion_adjustment_handler ev conversion_type
    else if bool_decide (conversion_type = MESSAGE_RECEIVED) then
      if is_manual_import ev then
        let* lead_id := extract_incoming_lead_id ev in
        upload_conversion_handler ev conversion_type (Some lead_id)
      else update_lead_handler conversion_type ev
    else upload_conversion_handler ev conversion_type None
  else response 404 "Invalid path".

End Handlers.

(** ** Dispatch paths *)

Inductive Path :=
| AdjustmentPath
| ManualUploadPath
| MatchedLeadPath
| DirectUploadPath.

#[global] Instance Path_eq_dec : EqDecision Path.
Proof. solve_decision. Defined.

(** The branch [lambda_handler] takes once the conversion type is known. *)
Definition select_path (conversion_type : ConversionType)
    (is_adjustment is_manual : bool) : Path :=
  if is_adjustment then AdjustmentPath
  else if bool_decide (conversion_type = MESSAGE_RECEIVED) then
    if is_manual then ManualUploadPath else MatchedLeadPath
  else DirectUploadPath.

(** What each branch of [lambda_handler] runs. *)
Definition run_path (env : Env) (p : Path) (ev : Event)
    (conversion_type : ConversionType) : M (option Response) :=
  match p with
  | AdjustmentPath => upload_conversion_adjustment_handler env ev conversion_type
  | ManualUploadPath =>
      let* lead_id := extract_incoming_lead_id ev in
      upload_conversion_handler env ev conversion_type (Some lead_id)
  | MatchedLeadPath => update_lead_handler env conversion_type ev
  | DirectUploadPath => upload_conversion_handler env ev conversion_type None
  end.

(** The ordered list of the dispatch contract, each line carrying the
    negation of the lines before it. *)
Inductive applies : Path → ConversionType → bool → bool → Prop :=
| applies_adjustment ct man :
    applies AdjustmentPath ct true man
| applies_manual :
    applies ManualUploadPath MESSAGE_RECEIVED false true
| applies_matched :
    applies MatchedLeadPath MESSAGE_RECEIVED false false
| applies_direct ct man :
    ct ≠ MESSAGE_RECEIVED → applies DirectUploadPath ct false man.

(** An event that [lambda_handler] routes to the lead-update branch. *)
Definition is_update_lead_request (ev : Event) : Prop :=
  rawPath ev = Some "/update-lead" ∧ method ev = "POST".

Definition is_click_log_request (ev : Event) : Prop :=
  rawPath ev = Some "/outbound-click-logs" ∧ method ev = "POST".

(** ** Running a handler *)

Definition result_of {A} (r : Result A * World) : Result A := fst r.
Definition world_of {A} (r : Result A * World) : World := snd r.

(** The calls a run added to the log. *)
Definition new_calls {A} (w : World) (r : Result A * World) : list Call :=
  drop (length (calls w)) (calls (snd r)).

Definition initial (s : Store) : World := {| table := s; calls := [] |}.

(** The status code a run answered with, if it answered. *)
Definition status_of (r : Result (option Response) * World) : option Z :=
  match fst r with
  | Ok (Some resp) => Some (statusCode resp)
  | _ => None
  end.


(** ** Invocations running side by side

    Each invocation of the lambda is a process of its own; what they share is
    the table. An attempt to match a lead is cut where [update_lead_handler]
    is: first the query, one request to the store, then [update_lead] on the
    items that came back. Other invocations may run in between. *)

Inductive Attempt :=
| Started (env : Env) (conversion_type : ConversionType) (ev : Event)
| Queried (env : Env) (conversion_type : ConversionType) (ev : Event)
    (items : list Item)
| Finished (r : Result (option Response)).

Definition attempt_step (a : Attempt) (w : World) : Attempt * World :=
  match a with
  | Started env ct ev =>
      match table_query env w with
      | (Ok items, w') => (Queried env ct ev items, w')
      | (Raise e, w') => (Finished (Raise e), w')
      end
  | Queried env ct ev items =>
      let (r, w') :=
        (let* lead_id := extract_incoming_lead_id ev in
         update_lead env items ct lead_id) w in
      (Finished r, w')
  | Finished r => (Finished r, w)
  end.

Record System := {
  attempts : list Attempt;
  world : World;
}.

(** Attempt number [i] takes its next step. *)
Definition step_attempt (sys : System) (i : nat) : System :=
  match attempts sys !! i with
  | Some a =>
      let (a', w') := attempt_step a (world sys) in
      {| attempts := <[i := a']> (attempts sys); world := w' |}
  | None => sys
  end.

Definition run_schedule (schedule : list nat) (sys : System) : System :=
  foldl step_attempt sys schedule.

(** No external call raises during the invocation. *)
Definition collaborators_answer (env : Env) : Prop :=
  query_exn env = None
  ∧ put_item_exn env = None
  ∧ update_item_exn env = None
  ∧ kommo_update_lead_exn env = None
  ∧ kommo_construct_raw_lead_exn env = None
  ∧ upload_offline_conversion_exn env = None
  ∧ upload_offline_conversion_adjustment_exn env = None.

(** ** Scenarios

    Concrete requests, clock readings and answers of the collaborators, used
    to run the handlers. *)

Definition seconds (n : Z) : Z := n * 1000000.

(** Every collaborator answers; the clock reads [t]. *)
Definition calm (t : Z) : Env :=
  {| now := t;
     query_exn := None;
     put_item_exn := None;
     update_item_exn := None;
     kommo_update_lead_exn := None;
     kommo_construct_raw_lead_exn := None;
     upload_offline_conversion_exn := None;
     upload_offline_conversion_adjustment_exn := None |}.

(** As [calm], but [put_item] raises [e]. *)
Definition put_item_raises (e : Exn) (t : Z) : Env :=
  {| now := t;
     query_exn := None;
     put_item_exn := Some e;
     update_item_exn := None;
     kommo_update_lead_exn := None;
     kommo_construct_raw_lead_exn := None;
     upload_offline_conversion_exn := None;
     upload_offline_conversion_adjustment_exn := None |}.

(** As [calm], but the CRM lead update raises [e]. *)
Definition kommo_update_lead_raises (e : Exn) (t : Z) : Env :=
  {| now := t;
     query_exn := None;
     put_item_exn := None;
     update_item_exn := None;
     kommo_update_lead_exn := Some e;
     kommo_construct_raw_lead_exn := None;
     upload_offline_conversion_exn := None;
     upload_offline_conversion_adjustment_exn := None |}.

(** As [calm], but the conversion upload raises [e]. *)
Definition upload_offline_conversion_raises (e : Exn) (t : Z) : Env :=
  {| now := t;
     query_exn := None;
     put_item_exn := None;
     update_item_exn := None;
     kommo_update_lead_exn := None;
     kommo_construct_raw_lead_exn := None;
     upload_offline_conversion_exn := Some e;
     upload_offline_conversion_adjustment_exn := None |}.

(** A text body that is a JSON object; it is not a base64 form. *)
Definition json_object (d : gmap string PyVal) : Body :=
  BodyText (Ok (JObject d)) (Raise OtherException).

(** A text body that is a base64 form; it is not JSON. *)
Definition form_payload (d : gmap string string) : Body :=
  BodyText (Raise OtherException) (Ok d).

Definition click_request (b : Body) : Event :=
  {| rawPath := Some "/outbound-click-logs";
     method := "POST";
     queryStringParameters := None;
     body := b |}.

Definition update_lead_request (qs payload : gmap string string) : Event :=
  {| rawPath := Some "/update-lead";
     method := "POST";
     queryStringParameters := Some qs;
     body := form_payload payload |}.

(** The click beacon [{gclid: "abc", page_path: "/p"}]. *)
Definition beacon : gmap string PyVal :=
  list_to_map [("gclid", PStr "abc"); ("page_path", PStr "/p")].

(** The entry that beacon leaves in the table when it arrives at second 0
    with a TTL of 15 minutes. *)
Definition beacon_item : Item := click_item beacon (seconds 0) (seconds 900).

(** The lead webhook [leads[add][0][id]=42]. *)
Definition lead_added (lead_id : string) : gmap string string :=
  {[ "leads[add][0][id]" := lead_id ]}.

Definition message_received_query : gmap string string :=
  {[ "conversion_type" := "message_received" ]}.

(** A status-changed webhook that flags an adjustment of a qualified lead;
    the payload carries the two identifier fields. *)
Definition adjustment_query : gmap string string :=
  {[ "conversion_type" := "qualified"; "is_adjustment" := "True" ]}.

Definition both_ids (added changed : string) : gmap string string :=
  {[ "leads[add][0][id]" := added; "leads[status][0][id]" := changed ]}.

Definition status_changed (lead_id : string) : gmap string string :=
  {[ "leads[status][0][id]" := lead_id ]}.

(** ** What a run may do to the table *)

(** Every run of [m] takes the table from [s] to some [s'] with [R s s']. *)
Definition table_effect {A} (R : Store → Store → Prop) (m : M A) : Prop :=
  ∀ w, R (table w) (table (snd (m w))).

(** The table is as it was, or one [update_item] was applied to it. *)
Definition claimed_at_most_one (s s' : Store) : Prop :=
  s' = s ∨ ∃ k, s' = update_item k s.


(** Every answer of [m] carries one of the status codes [codes]. *)
Definition answers_within (codes : list Z) (m : M (option Response)) : Prop :=
  ∀ w, match fst (m w) with
       | Ok (Some resp) => statusCode resp ∈ codes
       | _ => True
       end.

(** The payload field from which each path takes the lead id. *)
Definition id_field (p : Path) : string :=
  match p with
  | AdjustmentPath | ManualUploadPath | MatchedLeadPath => "leads[add][0][id]"
  | DirectUploadPath => "leads[status][0][id]"
  end.

(** ** More scenarios *)

Inductive Operation :=
| OpQuery
| OpPutItem
| OpUpdateItem
| OpKommoUpdateLead
| OpKommoConstructRawLead
| OpUploadOfflineConversion
| OpUploadOfflineConversionAdjustment.

#[global] Instance Operation_eq_dec : EqDecision Operation.
Proof. solve_decision. Defined.

(** The clock reads [t] and every collaborator answers, except that the
    operation [op] raises [e]. *)
Definition failing (op : Operation) (e : Exn) (t : Z) : Env :=
  let at_op o := if bool_decide (op = o) then Some e else None in
  {| now := t;
     query_exn := at_op OpQuery;
     put_item_exn := at_op OpPutItem;
     update_item_exn := at_op OpUpdateItem;
     kommo_update_lead_exn := at_op OpKommoUpdateLead;
     kommo_construct_raw_lead_exn := at_op OpKommoConstructRawLead;
     upload_offline_conversion_exn := at_op OpUploadOfflineConversion;
     upload_offline_conversion_adjustment_exn :=
       at_op OpUploadOfflineConversionAdjustment |}.

(** A status-changed webhook for a qualified lead, no flags. *)
Definition qualified_query : gmap string string :=
  {[ "conversion_type" := "qualified" ]}.

(** A lead-added webhook flagged as a manual import. *)
Definition manual_query : gmap string string :=
  {[ "conversion_type" := "message_received"; "is_manual" := "True" ]}.

(** A click logged at second 100, after the beacon's. *)
Definition newer_item : Item :=
  click_item {[ "gclid" := PStr "new" ]} (seconds 100) (seconds 1000).

(** * Properties *)

(** ** The monad on values *)

Lemma bind_ret {A B} (a : A) (k : A → M B) : bind (ret a) k = k a.
Proof. reflexivity. Qed.

Lemma bind_lift_Ok {A B} (a : A) (k : A → M B) : bind (lift (Ok a)) k = k a.
Proof. reflexivity. Qed.


Lemma bind_apply {A B} (m : M A) (k : A → M B) (w : World) :
  bind m k w
  = match m w with
    | (Ok a, w') => k a w'
    | (Raise e, w') => (Raise e, w')
    end.
Proof. reflexivity. Qed.

Lemma bind_raise {A B} (e : Exn) (k : A → M B) : bind (raise e) k = raise e.
Proof. reflexivity. Qed.

(** ** The table *)

Lemma newest_is_newest (s : Store) : is_newest s (newest s).
Proof.
  unfold newest.
  apply (map_fold_weak_ind (λ r m, is_newest m r)); [done|].
  intros i x m r Hi IH. destruct r as [[k it]|]; cbn in *.
  - destruct IH as [Hk Hmax]. case_bool_decide as Hlt; cbn.
    + split; [apply lookup_insert_eq|].
      intros k' Hk'. destruct (decide (k' = i)) as [->|Hne]; [lia|].
      rewrite lookup_insert_ne in Hk' by done. specialize (Hmax _ Hk'). lia.
    + assert (k ≠ i) by (intros ->; congruence).
      split; [by rewrite lookup_insert_ne|].
      intros k' Hk'. destruct (decide (k' = i)) as [->|Hne]; [lia|].
      rewrite lookup_insert_ne in Hk' by done. by apply Hmax.
  - subst m. split; [apply lookup_insert_eq|].
    intros k' Hk'. destruct (decide (k' = i)) as [->|Hne]; [lia|].
    rewrite lookup_insert_ne, lookup_empty in Hk' by done.
    by destruct Hk'.
Qed.

Lemma is_newest_unique (s : Store) r1 r2 :
  is_newest s r1 → is_newest s r2 → r1 = r2.
Proof.
  destruct r1 as [[k1 it1]|], r2 as [[k2 it2]|]; cbn.
  - intros [H1 M1] [H2 M2].
    assert (k1 = k2) as ->.
    { pose proof (M1 k2 (mk_is_Some _ _ H2)).
      pose proof (M2 k1 (mk_is_Some _ _ H1)). lia. }
    congruence.
  - intros [H1 _] ->. by rewrite lookup_empty in H1.
  - intros -> [H2 _]. by rewrite lookup_empty in H2.
  - done.
Qed.

(** Whatever the query returns is in the table, unmatched, under the
    greatest key. *)
Lemma query_item (s : Store) it :
  it ∈ query s →
  query s = [it]
  ∧ it !! "matched" = Some (PBool false)
  ∧ ∃ k, s !! k = Some it ∧ ∀ k', is_Some (s !! k') → k' ≤ k.
Proof.
  unfold query. pose proof (newest_is_newest s) as Hs.
  destruct (newest s) as [[k it']|]; [|by intros ?%elem_of_nil].
  destruct (unmatched it') eqn:Hun; [|by intros ?%elem_of_nil].
  intros ->%list_elem_of_singleton. split; [done|].
  split; [by apply bool_decide_eq_true in Hun|]. by exists k.
Qed.

(** Once the newest entry is claimed, a query returns nothing. *)
Lemma query_after_claim (s : Store) k it :
  newest s = Some (k, it) →
  query (update_item k s) = [].
Proof.
  intros Hn. pose proof (newest_is_newest s) as Hs. rewrite Hn in Hs.
  destruct Hs as [Hk Hmax].
  assert (Hn' : is_newest (update_item k s)
                  (Some (k, <["matched" := PBool true]> it))).
  { unfold update_item. rewrite Hk. cbn. split; [apply lookup_insert_eq|].
    intros k' Hk'. destruct (decide (k' = k)) as [->|Hne]; [lia|].
    rewrite lookup_insert_ne in Hk' by done. by apply Hmax. }
  pose proof (is_newest_unique _ _ _ (newest_is_newest _) Hn') as Heq.
  unfold query. rewrite Heq. unfold unmatched.
  rewrite lookup_insert_eq. by rewrite bool_decide_eq_false_2.
Qed.

(** A write under a key that is already there replaces the item; the table
    does not grow. *)
Lemma put_item_replaces (s : Store) k it it' :
  s !! k = Some it →
  put_item k it' s !! k = Some it' ∧ size (put_item k it' s) = size s.
Proof.
  intros Hk. unfold put_item. split; [apply lookup_insert_eq|].
  rewrite <- (insert_delete_id s k it) at 2 by done.
  rewrite <- (insert_delete_eq s k it').
  rewrite !map_size_insert_None by apply lookup_delete_eq. done.
Qed.

(** ** Dispatch *)

Lemma lambda_handler_update_lead ttl names env ev ct :
  is_update_lead_request ev →
  conversion_type_of names ev = Ok ct →
  lambda_handler ttl names env ev
  = run_path env
      (select_path ct (is_conversion_adjustment ev) (is_manual_import ev))
      ev ct.
Proof.
  intros [Hpath Hmethod] Hct.
  unfold lambda_handler, select_path.
  rewrite Hpath, Hmethod, Hct. cbn [default from_option id].
  change (bool_decide ("/update-lead" = "/outbound-click-logs")) with false.
  change (bool_decide ("/update-lead" = "/update-lead")) with true.
  change (bool_decide ("POST" = "POST")) with true.
  cbn [andb]. rewrite bind_lift_Ok.
  destruct (is_conversion_adjustment ev); [reflexivity|].
  destruct (bool_decide (ct = MESSAGE_RECEIVED)); [|reflexivity].
  destruct (is_manual_import ev); reflexivity.
Qed.

Lemma select_path_applies ct adj man : applies (select_path ct adj man) ct adj man.
Proof.
  unfold select_path. destruct adj; [constructor|].
  case_bool_decide as Hct.
  - subst ct. destruct man; constructor.
  - by constructor.
Qed.

Lemma applies_select_path p ct adj man :
  applies p ct adj man → p = select_path ct adj man.
Proof.
  intros H. destruct H; unfold select_path; try reflexivity.
  by rewrite bool_decide_eq_false_2.
Qed.

(** C6: for every conversion type and pair of flags exactly one line of the
    dispatch list applies, and it is the branch that [lambda_handler] runs on
    every lead-update request carrying them: the adjustment flag first, then
    MESSAGE_RECEIVED with and without the manual flag, then every other
    conversion type. *)
Theorem dispatch_total_and_deterministic ct adj man :
  ∃ p : Path,
    applies p ct adj man
    ∧ (∀ q, applies q ct adj man → q = p)
    ∧ p = select_path ct adj man
    ∧ ∀ ttl names env ev,
        is_update_lead_request ev →
        conversion_type_of names ev = Ok ct →
        is_conversion_adjustment ev = adj →
        is_manual_import ev = man →
        lambda_handler ttl names env ev = run_path env p ev ct.
Proof.
  exists (select_path ct adj man).
  split; [apply select_path_applies|].
  split; [intros q Hq; by apply applies_select_path|].
  split; [reflexivity|].
  intros ttl names env ev Hreq Hct <- <-.
  by apply lambda_handler_update_lead.
Qed.


(** The values the flag comparison does not accept. *)
Lemma flag_values_other_than_True (v : option string) :
  v ∈ [Some "true"; Some "TRUE"; Some "1"; Some "False"; Some ""; None] →
  ∀ ev, queryStringParameters ev
        = Some (from_option (λ s, {[ "is_adjustment" := s ]}) ∅ v) →
        is_conversion_adjustment ev = false.
Proof.
  intros Hv ev Hqs. unfold is_conversion_adjustment, query_string_params.
  rewrite Hqs. apply bool_decide_eq_false_2.
  repeat (apply elem_of_cons in Hv as [-> | Hv]; [by vm_compute|]).
  by apply elem_of_nil in Hv.
Qed.

(** ** Click logs *)

Lemma click_item_expires_at b c e :
  click_item b c e !! "expires_at" = Some (PInt (int_timestamp e)).
Proof. reflexivity. Qed.


Lemma click_item_matched b c e :
  click_item b c e !! "matched" = Some (PBool false).
Proof. reflexivity. Qed.

(** What a run of [persist_clicklog_to_db] does, by the answer of the
    store. *)
Lemma persist_clicklog_to_db_run ttl env b w :
  let it := click_item b (now env) (now env + timedelta_minutes ttl) in
  let k := int_timestamp (now env + timedelta_minutes ttl) in
  persist_clicklog_to_db ttl env b w
  = match put_item_exn env with
    | None =>
        (Ok (Some {| statusCode := 200;
                     message := "Click log persisted successfully." |}),
         {| table := put_item k it (table w);
            calls := calls w ++ [TablePutItem it] |})
    | Some RuntimeError =>
        (Ok (Some {| statusCode := 500;
                     message :=
                       "Something went wrong while persisting the click log." |}),
         {| table := table w; calls := calls w ++ [TablePutItem it] |})
    | Some e =>
        (Raise e, {| table := table w; calls := calls w ++ [TablePutItem it] |})
    end.
Proof.
  intros it k. subst it k.
  unfold persist_clicklog_to_db, try_except_RuntimeError, table_put_item, bind,
    log_call, outcome.
  rewrite click_item_expires_at.
  destruct (put_item_exn env) as [[]|]; reflexivity.
Qed.


Lemma truthy_py_or a b : truthy (py_or a b) = truthy a || truthy b.
Proof. unfold py_or. destruct (truthy a) eqn:Ha; [by rewrite Ha | done]. Qed.

Lemma new_calls_app {A} w (r : Result A) s cs :
  new_calls w (r, {| table := s; calls := calls w ++ cs |}) = cs.
Proof. unfold new_calls. cbn. by rewrite drop_app_length. Qed.


Lemma lambda_handler_click_log ttl names env ev :
  is_click_log_request ev →
  lambda_handler ttl names env ev = click_log_handler ttl env ev.
Proof.
  intros [Hpath Hmethod]. unfold lambda_handler.
  by rewrite Hpath, Hmethod.
Qed.

(** A click-log request whose body is a JSON object. *)
Lemma click_log_handler_object ttl env ev b :
  json_loads_body ev = Ok (JObject b) →
  click_log_handler ttl env ev
  = if truthy (dict_get b "gclid") || truthy (dict_get b "gbraid")
    then persist_clicklog_to_db ttl env b
    else response 400 "Missing required parameter gclid and gbraid".
Proof.
  intros Hb. unfold click_log_handler. rewrite Hb, bind_lift_Ok.
  rewrite truthy_py_or. by destruct (_ || _).
Qed.



(** C8, as the code has it: for a click-log request whose body is a JSON
    object, the handler answers 400 and touches nothing when [gclid] and
    [gbraid] are both missing or falsy (null, empty); when one of them is
    truthy it writes an item with [matched = False] and answers 200 if the
    write goes through, and answers 500 leaving the table as it was if the
    write raises [RuntimeError]. *)
Theorem click_log_outcomes ttl names env ev b w :
  is_click_log_request ev →
  json_loads_body ev = Ok (JObject b) →
  let run := lambda_handler ttl names env ev w in
  let has_id := truthy (dict_get b "gclid") || truthy (dict_get b "gbraid") in
  let it := click_item b (now env) (now env + timedelta_minutes ttl) in
  (b !! "gclid" = None → b !! "gbraid" = None → has_id = false)
  ∧ (has_id = false →
     result_of run
     = Ok (Some {| statusCode := 400;
                   message := "Missing required parameter gclid and gbraid" |})
     ∧ world_of run = w)
  ∧ (has_id = true → put_item_exn env = None →
     result_of run
     = Ok (Some {| statusCode := 200;
                   message := "Click log persisted successfully." |})
     ∧ table (world_of run)
       = put_item (int_timestamp (now env + timedelta_minutes ttl)) it (table w)
     ∧ it !! "matched" = Some (PBool false))
  ∧ (has_id = true → put_item_exn env = Some RuntimeError →
     result_of run
     = Ok (Some {| statusCode := 500;
                   message :=
                     "Something went wrong while persisting the click log." |})
     ∧ table (world_of run) = table w).
Proof.
  intros Hreq Hb run has_id it. subst run.
  rewrite (lambda_handler_click_log _ _ _ _ Hreq).
  rewrite (click_log_handler_object _ _ _ _ Hb). fold has_id.
  split; [|split; [|split]].
  - intros Hg Hgb. subst has_id. unfold dict_get. by rewrite Hg, Hgb.
  - intros ->. done.
  - intros -> Hput. rewrite persist_clicklog_to_db_run, Hput. done.
  - intros -> Hput. rewrite persist_clicklog_to_db_run, Hput. done.
Qed.

Lemma click_log_outcomes_witness :
  let ev := click_request (json_object beacon) in
  let run := lambda_handler 15 [] (calm (seconds 0)) ev (initial ∅) in
  is_click_log_request ev
  ∧ json_loads_body ev = Ok (JObject beacon)
  ∧ status_of run = Some 200
  ∧ table (world_of run) = {[ 900 := beacon_item ]}.
Proof.
  intros ev run.
  assert (Hreq : is_click_log_request ev) by (split; reflexivity).
  assert (Hb : json_loads_body ev = Ok (JObject beacon)) by reflexivity.
  destruct (click_log_outcomes 15 [] (calm (seconds 0)) ev beacon (initial ∅)
              Hreq Hb) as (_ & _ & Hok & _).
  destruct (Hok eq_refl eq_refl) as (Hres & Htable & _).
  split; [exact Hreq|]. split; [exact Hb|]. split.
  - unfold status_of. fold run in Hres. unfold result_of in Hres.
    rewrite Hres. reflexivity.
  - fold run in Htable. rewrite Htable. reflexivity.
Defined.

(** C8 as stated fails in three places: a request without a body has
    neither identifier and is not answered 400; a store write that raises
    anything but [RuntimeError] is not answered 500; a request whose [gclid]
    is there but empty is answered 400 although the store would take the
    write. *)
Lemma click_log_outcomes_counterexample :
  let no_body :=
    lambda_handler 15 [] (calm (seconds 0)) (click_request BodyNone)
      (initial ∅) in
  let store_down :=
    lambda_handler 15 [] (put_item_raises OtherException (seconds 0))
      (click_request (json_object beacon)) (initial ∅) in
  let empty_gclid :=
    lambda_handler 15 [] (calm (seconds 0))
      (click_request (json_object {[ "gclid" := PStr "" ]})) (initial ∅) in
  (result_of no_body = Raise TypeError ∧ status_of no_body ≠ Some 400)
  ∧ (result_of store_down = Raise OtherException
     ∧ status_of store_down ≠ Some 500)
  ∧ (status_of empty_gclid = Some 400 ∧ status_of empty_gclid ≠ Some 200).
Proof. repeat split; (reflexivity || discriminate). Qed.

(** C7, as the code has it: when the same accepted body is submitted twice
    and the two expiry instants fall in different seconds, the table ends up
    holding both entries, each under its own key, and the second write leaves
    the first entry as it was. *)
Theorem persist_twice_distinct_seconds ttl env1 env2 ev b w :
  json_loads_body ev = Ok (JObject b) →
  truthy (dict_get b "gclid") || truthy (dict_get b "gbraid") = true →
  put_item_exn env1 = None →
  put_item_exn env2 = None →
  let k1 := int_timestamp (now env1 + timedelta_minutes ttl) in
  let k2 := int_timestamp (now env2 + timedelta_minutes ttl) in
  k1 ≠ k2 →
  let w1 := world_of (click_log_handler ttl env1 ev w) in
  let w2 := world_of (click_log_handler ttl env2 ev w1) in
  table w2 !! k1
  = Some (click_item b (now env1) (now env1 + timedelta_minutes ttl))
  ∧ table w2 !! k2
    = Some (click_item b (now env2) (now env2 + timedelta_minutes ttl))
  ∧ table w2 !! k1 = table w1 !! k1.
Proof.
  intros Hb Hid Hput1 Hput2 k1 k2 Hne w1 w2. subst w1 w2.
  rewrite !(click_log_handler_object _ _ _ _ Hb), !Hid.
  rewrite !persist_clicklog_to_db_run, Hput1, Hput2. cbn.
  unfold put_item. fold k1 k2.
  rewrite lookup_insert_ne by done. rewrite !lookup_insert_eq. done.
Qed.

Lemma persist_twice_distinct_seconds_witness :
  let ev := click_request (json_object beacon) in
  let w1 := world_of (click_log_handler 15 (calm (seconds 0)) ev (initial ∅)) in
  let w2 := world_of (click_log_handler 15 (calm (seconds 1)) ev w1) in
  (900 ≠ 901)
  ∧ table w2 !! 900 = Some beacon_item
  ∧ table w2 !! 901 = Some (click_item beacon (seconds 1) (seconds 901))
  ∧ size (table w2) = 2%nat.
Proof.
  intros ev w1 w2.
  destruct (persist_twice_distinct_seconds 15 (calm (seconds 0))
              (calm (seconds 1)) ev beacon (initial ∅)
              eq_refl eq_refl eq_refl eq_refl)
    as (H1 & H2 & _); [by vm_compute|].
  split; [lia|]. split; [exact H1|]. split; [exact H2|]. reflexivity.
Defined.

(** C7 as stated fails when both submissions fall in one second: the table
    holds one entry, not two; and an entry claimed in between is replaced by
    the second write, its [matched] flag back to [False]. *)
Lemma persist_twice_counterexample :
  let ev := click_request (json_object beacon) in
  let first := lambda_handler 15 [] (calm 1000000) ev (initial ∅) in
  let second := lambda_handler 15 [] (calm 1400000) ev (world_of first) in
  let claimed := update_item 901 (table (world_of first)) in
  let again :=
    lambda_handler 15 [] (calm 1400000) ev
      {| table := claimed; calls := [] |} in
  (status_of first = Some 200 ∧ status_of second = Some 200
   ∧ size (table (world_of second)) = 1%nat)
  ∧ (claimed !! 901 ≫= (.!! "matched") = Some (PBool true)
     ∧ table (world_of again) !! 901 ≫= (.!! "matched") = Some (PBool false)
     ∧ size (table (world_of again)) = 1%nat).
Proof. repeat split; reflexivity. Qed.

(** ** Lead-update requests *)


Lemma lambda_handler_update_lead_raise ttl names env ev e :
  is_update_lead_request ev →
  conversion_type_of names ev = Raise e →
  lambda_handler ttl names env ev = raise e.
Proof.
  intros [Hpath Hmethod] Hct. unfold lambda_handler.
  rewrite Hpath, Hmethod, Hct. reflexivity.
Qed.




(** The adjustment branch on a payload that has the lead-added field. *)
Lemma upload_conversion_adjustment_handler_run env ev ct payload lead_id w :
  decode_form ev = Ok payload →
  payload !! "leads[add][0][id]" = Some lead_id →
  upload_conversion_adjustment_handler env ev ct w
  = (match upload_offline_conversion_adjustment_exn env with
     | None =>
         Ok (Some {| statusCode := 200;
                     message := "Conversion adjustment uploaded successfully." |})
     | Some RuntimeError =>
         Ok (Some {| statusCode := 500;
                     message := "Something went wrong while uploading the click conversion adjustment." |})
     | Some e => Raise e
     end,
     {| table := table w;
        calls := calls w ++ [AdsUploadOfflineConversionAdjustment ct lead_id] |}).
Proof.
  intros Hform Hlead.
  unfold upload_conversion_adjustment_handler, try_except_RuntimeError,
    extract_incoming_lead_id, payload_getitem.
  rewrite Hform, bind_lift_Ok, Hlead, bind_ret.
  unfold upload_offline_conversion_adjustment, bind, log_call, outcome.
  destruct (upload_offline_conversion_adjustment_exn env) as [[]|]; reflexivity.
Qed.

(** The adjustment branch on a payload without the lead-added field. *)
Lemma upload_conversion_adjustment_handler_no_lead env ev ct payload w :
  decode_form ev = Ok payload →
  payload !! "leads[add][0][id]" = None →
  upload_conversion_adjustment_handler env ev ct w = (Raise KeyError, w).
Proof.
  intros Hform Hlead.
  unfold upload_conversion_adjustment_handler, try_except_RuntimeError,
    extract_incoming_lead_id, payload_getitem.
  by rewrite Hform, bind_lift_Ok, Hlead.
Qed.

(** C3, as the code has it: a lead-update request with the adjustment flag
    takes the adjustment branch; the lead id is read from the lead-added
    field [leads[add][0][id]] of the payload, the only call made is the
    adjustment upload with that conversion type and lead id, and the table is
    left alone. The answer is 200, or 500 when the upload raises
    [RuntimeError]. *)
Theorem adjustment_uploads_lead_added_id ttl names env ev ct payload lead_id w :
  is_update_lead_request ev →
  conversion_type_of names ev = Ok ct →
  is_conversion_adjustment ev = true →
  decode_form ev = Ok payload →
  payload !! "leads[add][0][id]" = Some lead_id →
  let run := lambda_handler ttl names env ev w in
  select_path ct (is_conversion_adjustment ev) (is_manual_import ev)
  = AdjustmentPath
  ∧ new_calls w run = [AdsUploadOfflineConversionAdjustment ct lead_id]
  ∧ table (world_of run) = table w
  ∧ (upload_offline_conversion_adjustment_exn env = None →
     status_of run = Some 200)
  ∧ (upload_offline_conversion_adjustment_exn env = Some RuntimeError →
     status_of run = Some 500).
Proof.
  intros Hreq Hct Hadj Hform Hlead run. subst run.
  rewrite (lambda_handler_update_lead _ _ _ _ _ Hreq Hct), Hadj.
  cbn [select_path run_path].
  rewrite (upload_conversion_adjustment_handler_run _ _ _ _ _ _ Hform Hlead).
  rewrite new_calls_app.
  repeat split; intros ->; reflexivity.
Qed.

Lemma adjustment_uploads_lead_added_id_witness :
  let ev := update_lead_request adjustment_query (lead_added "42") in
  let run :=
    lambda_handler 15 ["LEAD_CREATED"; "QUALIFIED"] (calm (seconds 300)) ev
      (initial {[ 900 := beacon_item ]}) in
  is_update_lead_request ev
  ∧ is_conversion_adjustment ev = true
  ∧ new_calls (initial {[ 900 := beacon_item ]}) run
    = [AdsUploadOfflineConversionAdjustment (OtherConversion "QUALIFIED") "42"]
  ∧ status_of run = Some 200.
Proof.
  intros ev run.
  assert (Hreq : is_update_lead_request ev) by (split; reflexivity).
  destruct (adjustment_uploads_lead_added_id 15 ["LEAD_CREATED"; "QUALIFIED"]
              (calm (seconds 300)) ev (OtherConversion "QUALIFIED")
              (lead_added "42") "42" (initial {[ 900 := beacon_item ]})
              Hreq eq_refl eq_refl eq_refl eq_refl)
    as (_ & Hcalls & _ & Hok & _).
  split; [exact Hreq|]. split; [reflexivity|]. split; [exact Hcalls|].
  exact (Hok eq_refl).
Defined.

(** C3 as stated fails: with both identifier fields in the payload the
    adjustment is uploaded for the lead-added id, not the status-changed
    one; with the status-changed field alone the handler raises [KeyError]
    and uploads nothing. *)
Lemma adjustment_lead_id_counterexample :
  let w := initial {[ 900 := beacon_item ]} in
  let run payload :=
    lambda_handler 15 ["LEAD_CREATED"; "QUALIFIED"] (calm (seconds 300))
      (update_lead_request adjustment_query payload) w in
  (new_calls w (run (both_ids "1" "2"))
   = [AdsUploadOfflineConversionAdjustment (OtherConversion "QUALIFIED") "1"]
   ∧ new_calls w (run (both_ids "1" "2"))
     ≠ [AdsUploadOfflineConversionAdjustment (OtherConversion "QUALIFIED") "2"])
  ∧ (result_of (run (status_changed "2")) = Raise KeyError
     ∧ new_calls w (run (status_changed "2")) = []).
Proof. repeat split; (reflexivity || discriminate). Qed.

(** ** The matcher *)

(** No pending click: the lead is tagged organic. *)
Lemma update_lead_no_items env ct lead_id w :
  update_lead env [] ct lead_id w
  = (match kommo_update_lead_exn env with
     | None =>
         Ok (Some {| statusCode := 200;
                     message := "Lead updated with organic source." |})
     | Some RuntimeError =>
         Ok (Some {| statusCode := 500;
                     message :=
                       "Lead with organic source could not be updated." |})
     | Some e => Raise e
     end,
     {| table := table w; calls := calls w ++ [KommoUpdateLeadOrganic lead_id] |}).
Proof.
  unfold update_lead, try_except_RuntimeError, kommo_update_lead_organic, bind,
    log_call, outcome.
  destruct (kommo_update_lead_exn env) as [[]|]; reflexivity.
Qed.

(** A pending click whose expiry has passed: [update_lead] reaches its end
    without a return statement and without a call. *)
Lemma update_lead_expired env item0 rest expires_at ct lead_id w :
  item0 !! "expires_at" = Some (PInt expires_at) →
  expires_at * 1000000 < now env →
  update_lead env (item0 :: rest) ct lead_id w = (Ok None, w).
Proof.
  intros Hexp Hlate. unfold update_lead, item_getitem.
  rewrite Hexp, bind_ret. cbn [timestamp_le]. rewrite bind_lift_Ok.
  by rewrite (proj2 (Z.leb_gt _ _) Hlate).
Qed.

Section Live.

(** A pending click that has not expired by the clock of [env]. *)
Variables (env : Env) (item0 : Item) (rest : list Item).
Variables (expires_at : Z) (gclid page_path : PyVal).
Hypothesis Hexp : item0 !! "expires_at" = Some (PInt expires_at).
Hypothesis Hgclid : item0 !! "gclid" = Some gclid.
Hypothesis Hpage : item0 !! "page_path" = Some page_path.
Hypothesis Hlive : now env ≤ expires_at * 1000000.

Lemma update_lead_live ct lead_id :
  update_lead env (item0 :: rest) ct lead_id
  = try_except_RuntimeError
      (table_update_item env (PInt expires_at);;
       kommo_update_lead_cpc env lead_id gclid (dict_get item0 "gbraid")
         page_path;;
       let* raw_lead := kommo_construct_raw_lead env lead_id in
       upload_offline_conversion env raw_lead ct;;
       response 200 "Lead updated with matched gclid.")
      (response 500 "Lead with cpc source could not be updated.").
Proof.
  unfold update_lead, item_getitem.
  rewrite Hexp, Hgclid, Hpage, !bind_ret. cbn [timestamp_le].
  rewrite bind_lift_Ok. by rewrite (proj2 (Z.leb_le _ _) Hlive).
Qed.

Hypothesis Hupdate : update_item_exn env = None.

(** The CRM refuses the lead update. *)
Lemma update_lead_crm_fails ct lead_id w :
  kommo_update_lead_exn env = Some RuntimeError →
  update_lead env (item0 :: rest) ct lead_id w
  = (Ok (Some {| statusCode := 500;
                 message := "Lead with cpc source could not be updated." |}),
     {| table := update_item expires_at (table w);
        calls := calls w
                 ++ [TableUpdateItem (PInt expires_at);
                     KommoUpdateLeadCpc lead_id gclid
                       (dict_get item0 "gbraid") page_path] |}).
Proof.
  intros Hcrm. rewrite update_lead_live.
  unfold try_except_RuntimeError, table_update_item, kommo_update_lead_cpc,
    bind, log_call, outcome.
  rewrite Hupdate, Hcrm. cbn. by rewrite <- app_assoc.
Qed.

Hypothesis Hcrm : kommo_update_lead_exn env = None.
Hypothesis Hraw : kommo_construct_raw_lead_exn env = None.

(** The ads platform refuses the conversion upload. *)
Lemma update_lead_upload_fails ct lead_id w :
  upload_offline_conversion_exn env = Some RuntimeError →
  update_lead env (item0 :: rest) ct lead_id w
  = (Ok (Some {| statusCode := 500;
                 message := "Lead with cpc source could not be updated." |}),
     {| table := update_item expires_at (table w);
        calls := calls w
                 ++ [TableUpdateItem (PInt expires_at);
                     KommoUpdateLeadCpc lead_id gclid
                       (dict_get item0 "gbraid") page_path;
                     KommoConstructRawLead lead_id;
                     AdsUploadOfflineConversion lead_id ct] |}).
Proof.
  intros Hads. rewrite update_lead_live.
  unfold try_except_RuntimeError, table_update_item, kommo_update_lead_cpc,
    kommo_construct_raw_lead, upload_offline_conversion, bind, log_call,
    outcome.
  rewrite Hupdate, Hcrm, Hraw, Hads. cbn. by rewrite <- !app_assoc.
Qed.

(** Every collaborator answers. *)
Lemma update_lead_matched ct lead_id w :
  upload_offline_conversion_exn env = None →
  update_lead env (item0 :: rest) ct lead_id w
  = (Ok (Some {| statusCode := 200;
                 message := "Lead updated with matched gclid." |}),
     {| table := update_item expires_at (table w);
        calls := calls w
                 ++ [TableUpdateItem (PInt expires_at);
                     KommoUpdateLeadCpc lead_id gclid
                       (dict_get item0 "gbraid") page_path;
                     KommoConstructRawLead lead_id;
                     AdsUploadOfflineConversion lead_id ct] |}).
Proof.
  intros Hads. rewrite update_lead_live.
  unfold try_except_RuntimeError, table_update_item, kommo_update_lead_cpc,
    kommo_construct_raw_lead, upload_offline_conversion, bind, log_call,
    outcome.
  rewrite Hupdate, Hcrm, Hraw, Hads. cbn. by rewrite <- !app_assoc.
Qed.

End Live.

(** C4, as the code has it: on a matched click, a CRM lead update that raises
    [RuntimeError] and a conversion upload that raises [RuntimeError] are
    answered with one and the same status and message; which call failed
    shows only in the calls that were made, the upload not being attempted
    after a failed lead update. *)
Theorem matched_failures_share_one_outcome
    env_crm env_ads item0 rest expires_at gclid page_path ct lead_id w :
  item0 !! "expires_at" = Some (PInt expires_at) →
  item0 !! "gclid" = Some gclid →
  item0 !! "page_path" = Some page_path →
  now env_crm ≤ expires_at * 1000000 →
  now env_ads ≤ expires_at * 1000000 →
  update_item_exn env_crm = None →
  kommo_update_lead_exn env_crm = Some RuntimeError →
  update_item_exn env_ads = None →
  kommo_update_lead_exn env_ads = None →
  kommo_construct_raw_lead_exn env_ads = None →
  upload_offline_conversion_exn env_ads = Some RuntimeError →
  let crm_failed := update_lead env_crm (item0 :: rest) ct lead_id w in
  let ads_failed := update_lead env_ads (item0 :: rest) ct lead_id w in
  result_of crm_failed
  = Ok (Some {| statusCode := 500;
                message := "Lead with cpc source could not be updated." |})
  ∧ result_of ads_failed = result_of crm_failed
  ∧ (AdsUploadOfflineConversion lead_id ct ∉ new_calls w crm_failed)
  ∧ (AdsUploadOfflineConversion lead_id ct ∈ new_calls w ads_failed).
Proof.
  intros Hexp Hg Hp Hlive1 Hlive2 Hupd1 Hcrm1 Hupd2 Hcrm2 Hraw2 Hads2
    crm_failed ads_failed.
  subst crm_failed ads_failed.
  rewrite (update_lead_crm_fails env_crm item0 rest expires_at gclid page_path)
    by done.
  rewrite (update_lead_upload_fails env_ads item0 rest expires_at gclid
             page_path) by done.
  rewrite !new_calls_app. cbn [result_of fst].
  split; [done|]. split; [done|]. split.
  - intros Hin. repeat (apply elem_of_cons in Hin as [Heq | Hin];
                        [discriminate Heq|]).
    by apply elem_of_nil in Hin.
  - apply list_elem_of_In. cbn. tauto.
Qed.

Lemma matched_failures_share_one_outcome_witness :
  let crm_failed :=
    update_lead (kommo_update_lead_raises RuntimeError (seconds 300))
      [beacon_item] MESSAGE_RECEIVED "42" (initial {[ 900 := beacon_item ]}) in
  let ads_failed :=
    update_lead (upload_offline_conversion_raises RuntimeError (seconds 300))
      [beacon_item] MESSAGE_RECEIVED "42" (initial {[ 900 := beacon_item ]}) in
  seconds 300 ≤ 900 * 1000000
  ∧ status_of crm_failed = Some 500
  ∧ result_of ads_failed = result_of crm_failed.
Proof.
  intros crm_failed ads_failed.
  assert (Hlive : seconds 300 ≤ 900 * 1000000) by (unfold seconds; lia).
  destruct (matched_failures_share_one_outcome
              (kommo_update_lead_raises RuntimeError (seconds 300))
              (upload_offline_conversion_raises RuntimeError (seconds 300))
              beacon_item [] 900 (PStr "abc") (PStr "/p") MESSAGE_RECEIVED "42"
              (initial {[ 900 := beacon_item ]})
              eq_refl eq_refl eq_refl Hlive Hlive
              eq_refl eq_refl eq_refl eq_refl eq_refl eq_refl)
    as (Hres & Hsame & _).
  split; [exact Hlive|]. split; [|exact Hsame].
  unfold status_of. unfold result_of in Hres. fold crm_failed in Hres.
  rewrite Hres. reflexivity.
Defined.

(** C4 as stated fails: on the matched-lead path with the beacon's click
    pending, the answer when the CRM lead update fails and the answer when
    the conversion upload fails are the same status and the same message. *)
Lemma matched_failures_counterexample :
  let ev := update_lead_request message_received_query (lead_added "42") in
  let w := initial {[ 900 := beacon_item ]} in
  let crm_failed :=
    lambda_handler 15 [] (kommo_update_lead_raises RuntimeError (seconds 300))
      ev w in
  let ads_failed :=
    lambda_handler 15 []
      (upload_offline_conversion_raises RuntimeError (seconds 300)) ev w in
  result_of crm_failed = result_of ads_failed
  ∧ result_of crm_failed
    = Ok (Some {| statusCode := 500;
                  message := "Lead with cpc source could not be updated." |})
  ∧ new_calls w crm_failed ≠ new_calls w ads_failed.
Proof. repeat split; (reflexivity || discriminate). Qed.

(** C2: a lead event on the matched-lead path that finds the newest unmatched
    entry past its expiry should have the lead tagged organic and be answered
    200. The code does not: with the beacon's entry (expiry at second 900)
    still in the table and the webhook arriving at second 1200, the handler
    queries the table and then returns [None]; the CRM is not called and no
    status is answered. Only the absence of a conversion upload is as
    claimed. *)
Theorem expired_click_ends_without_answer :
  let ev := update_lead_request message_received_query (lead_added "42") in
  let w := initial {[ 900 := beacon_item ]} in
  let run := lambda_handler 15 [] (calm (seconds 1200)) ev w in
  query (table w) = [beacon_item]
  ∧ 900 * 1000000 < now (calm (seconds 1200))
  ∧ result_of run = Ok None
  ∧ status_of run ≠ Some 200
  ∧ new_calls w run = [TableQuery]
  ∧ (KommoUpdateLeadOrganic "42" ∉ new_calls w run)
  ∧ table (world_of run) = table w.
Proof.
  repeat split; try reflexivity; try discriminate.
  intros Hin. apply list_elem_of_In in Hin. cbn in Hin.
  destruct Hin as [Heq | []]. discriminate Heq.
Qed.

Lemma table_query_run env w :
  query_exn env = None →
  table_query env w
  = (Ok (query (table w)),
     {| table := table w; calls := calls w ++ [TableQuery] |}).
Proof.
  intros Hq. unfold table_query, bind, log_call, outcome. by rewrite Hq.
Qed.

Lemma extract_incoming_lead_id_run ev payload lead_id :
  decode_form ev = Ok payload →
  payload !! "leads[add][0][id]" = Some lead_id →
  extract_incoming_lead_id ev = ret lead_id.
Proof.
  intros Hform Hlead. unfold extract_incoming_lead_id, payload_getitem.
  by rewrite Hform, bind_lift_Ok, Hlead.
Qed.

(** The matched-lead path once the query has answered and the payload has
    the lead-added field. *)
Lemma update_lead_handler_run env ct ev payload lead_id w :
  query_exn env = None →
  decode_form ev = Ok payload →
  payload !! "leads[add][0][id]" = Some lead_id →
  update_lead_handler env ct ev w
  = update_lead env (query (table w)) ct lead_id
      {| table := table w; calls := calls w ++ [TableQuery] |}.
Proof.
  intros Hq Hform Hlead. unfold update_lead_handler.
  rewrite (extract_incoming_lead_id_run _ _ _ Hform Hlead).
  unfold bind at 1. rewrite (table_query_run _ _ Hq).
  by rewrite bind_ret.
Qed.

(** The same on every table and clock: an expired head item ends the
    matched-lead path with the query as its only call. *)
Lemma update_lead_handler_expired env ct ev item0 expires_at payload lead_id w :
  query_exn env = None →
  query (table w) = [item0] →
  item0 !! "expires_at" = Some (PInt expires_at) →
  expires_at * 1000000 < now env →
  decode_form ev = Ok payload →
  payload !! "leads[add][0][id]" = Some lead_id →
  update_lead_handler env ct ev w
  = (Ok None, {| table := table w; calls := calls w ++ [TableQuery] |}).
Proof.
  intros Hq Hitems Hexp Hlate Hform Hlead.
  rewrite (update_lead_handler_run _ _ _ _ _ _ Hq Hform Hlead), Hitems.
  by rewrite (update_lead_expired env item0 [] expires_at).
Qed.

(** X19: one invocation after the other: when the first claims the newest
    entry, the second finds nothing to claim and tags its lead organic. *)
Lemma second_attempt_in_sequence_is_organic
    env1 env2 ct ev1 ev2 payload1 payload2 lead1 lead2 k it gclid page_path w :
  newest (table w) = Some (k, it) →
  it !! "matched" = Some (PBool false) →
  it !! "expires_at" = Some (PInt k) →
  it !! "gclid" = Some gclid →
  it !! "page_path" = Some page_path →
  now env1 ≤ k * 1000000 →
  collaborators_answer env1 →
  collaborators_answer env2 →
  decode_form ev1 = Ok payload1 →
  payload1 !! "leads[add][0][id]" = Some lead1 →
  decode_form ev2 = Ok payload2 →
  payload2 !! "leads[add][0][id]" = Some lead2 →
  let first := update_lead_handler env1 ct ev1 w in
  let second := update_lead_handler env2 ct ev2 (world_of first) in
  result_of first
  = Ok (Some {| statusCode := 200;
                message := "Lead updated with matched gclid." |})
  ∧ result_of second
    = Ok (Some {| statusCode := 200;
                  message := "Lead updated with organic source." |}).
Proof.
  intros Hn Hun Hexp Hg Hp Hlive (Hq1 & _ & Hu1 & Hc1 & Hr1 & Ha1 & _)
    (Hq2 & _ & _ & Hc2 & _) Hf1 Hl1 Hf2 Hl2 first second.
  subst first second.
  assert (Hitems : query (table w) = [it]).
  { unfold query, unmatched. rewrite Hn. by rewrite bool_decide_eq_true_2. }
  rewrite (update_lead_handler_run _ _ _ _ _ _ Hq1 Hf1 Hl1), Hitems.
  rewrite (update_lead_matched env1 it [] k gclid page_path) by done.
  split; [done|]. cbn [world_of snd].
  rewrite (update_lead_handler_run _ _ _ _ _ _ Hq2 Hf2 Hl2). cbn [table].
  rewrite (query_after_claim _ _ _ Hn), update_lead_no_items, Hc2. done.
Qed.

(** ** Concurrent match attempts *)

(** Run without interruption, the two steps of an attempt are
    [update_lead_handler]. *)
Lemma attempt_steps_are_update_lead_handler env ct ev w :
  let (a1, w1) := attempt_step (Started env ct ev) w in
  attempt_step a1 w1
  = (Finished (fst (update_lead_handler env ct ev w)),
     snd (update_lead_handler env ct ev w)).
Proof.
  unfold attempt_step, update_lead_handler.
  rewrite (bind_apply (table_query env)).
  destruct (table_query env w) as [[items|e] w1]; [|reflexivity].
  by destruct (bind _ _ w1).
Qed.

(** C1: one match attempt at most should see a given entry claimed. The
    update that claims carries no condition, so it succeeds on an entry that
    is already matched: when two invocations have both queried before either
    updates, both claim the beacon's entry, both tag their lead as cpc with
    its gclid, both upload a conversion and both answer 200. *)
Theorem two_attempts_claim_one_entry :
  let ev lead_id :=
    update_lead_request message_received_query (lead_added lead_id) in
  let sys0 :=
    {| attempts := [Started (calm (seconds 300)) MESSAGE_RECEIVED (ev "42");
                    Started (calm (seconds 300)) MESSAGE_RECEIVED (ev "43")];
       world := initial {[ 900 := beacon_item ]} |} in
  let sys := run_schedule [0; 1; 0; 1]%nat sys0 in
  let matched_answer :=
    Finished (Ok (Some {| statusCode := 200;
                          message := "Lead updated with matched gclid." |})) in
  attempts sys = [matched_answer; matched_answer]
  ∧ calls (world sys)
    = [TableQuery; TableQuery;
       TableUpdateItem (PInt 900);
       KommoUpdateLeadCpc "42" (PStr "abc") PNone (PStr "/p");
       KommoConstructRawLead "42";
       AdsUploadOfflineConversion "42" MESSAGE_RECEIVED;
       TableUpdateItem (PInt 900);
       KommoUpdateLeadCpc "43" (PStr "abc") PNone (PStr "/p");
       KommoConstructRawLead "43";
       AdsUploadOfflineConversion "43" MESSAGE_RECEIVED]
  ∧ table (world sys) = update_item 900 {[ 900 := beacon_item ]}.
Proof. repeat split; reflexivity. Qed.

(** One after the other, the second attempt finds the entry matched and tags
    its lead organic. *)
Lemma two_attempts_in_sequence :
  let ev lead_id :=
    update_lead_request message_received_query (lead_added lead_id) in
  let sys0 :=
    {| attempts := [Started (calm (seconds 300)) MESSAGE_RECEIVED (ev "42");
                    Started (calm (seconds 300)) MESSAGE_RECEIVED (ev "43")];
       world := initial {[ 900 := beacon_item ]} |} in
  attempts (run_schedule [0; 0; 1; 1]%nat sys0)
  = [Finished (Ok (Some {| statusCode := 200;
                           message := "Lead updated with matched gclid." |}));
     Finished (Ok (Some {| statusCode := 200;
                           message := "Lead updated with organic source." |}))].
Proof. reflexivity. Qed.

(** ** The contract's scenarios, run *)

(** The beacon is persisted with a TTL of 15 minutes and the lead webhook
    arrives five minutes later: the lead is tagged cpc with the beacon's
    gclid, the conversion is uploaded, the answer is 200, and the entry is
    left matched. *)
Lemma scenario_click_then_lead_within_ttl :
  let clicked :=
    lambda_handler 15 [] (calm (seconds 0))
      (click_request (json_object beacon)) (initial ∅) in
  let w := initial (table (world_of clicked)) in
  let run :=
    lambda_handler 15 [] (calm (seconds 300))
      (update_lead_request message_received_query (lead_added "42")) w in
  status_of clicked = Some 200
  ∧ status_of run = Some 200
  ∧ new_calls w run
    = [TableQuery;
       TableUpdateItem (PInt 900);
       KommoUpdateLeadCpc "42" (PStr "abc") PNone (PStr "/p");
       KommoConstructRawLead "42";
       AdsUploadOfflineConversion "42" MESSAGE_RECEIVED]
  ∧ table (world_of run) !! 900 ≫= (.!! "matched") = Some (PBool true).
Proof. repeat split; reflexivity. Qed.

(** No click is pending: the lead is tagged organic and nothing is
    uploaded. *)
Lemma scenario_lead_without_click :
  let w := initial ∅ in
  let run :=
    lambda_handler 15 [] (calm (seconds 300))
      (update_lead_request message_received_query (lead_added "42")) w in
  status_of run = Some 200
  ∧ new_calls w run = [TableQuery; KommoUpdateLeadOrganic "42"].
Proof. repeat split; reflexivity. Qed.

(** ** The statements above at concrete inputs *)

Lemma dispatch_total_and_deterministic_witness :
  let ev := update_lead_request message_received_query (lead_added "42") in
  is_update_lead_request ev
  ∧ conversion_type_of ["LEAD_CREATED"; "QUALIFIED"] ev = Ok MESSAGE_RECEIVED
  ∧ is_conversion_adjustment ev = false
  ∧ is_manual_import ev = false
  ∧ ∃ p : Path,
      applies p MESSAGE_RECEIVED false false
      ∧ p = MatchedLeadPath
      ∧ lambda_handler 15 ["LEAD_CREATED"; "QUALIFIED"] (calm (seconds 300)) ev
        = update_lead_handler (calm (seconds 300)) MESSAGE_RECEIVED ev.
Proof.
  intros ev.
  assert (Hreq : is_update_lead_request ev) by (split; reflexivity).
  assert (Hct : conversion_type_of ["LEAD_CREATED"; "QUALIFIED"] ev
                = Ok MESSAGE_RECEIVED) by reflexivity.
  split; [exact Hreq|]. split; [exact Hct|].
  split; [reflexivity|]. split; [reflexivity|].
  destruct (dispatch_total_and_deterministic MESSAGE_RECEIVED false false)
    as (p & Happlies & _ & Hp & Hrun).
  exists p. split; [exact Happlies|]. split; [exact Hp|].
  rewrite (Hrun 15 ["LEAD_CREATED"; "QUALIFIED"] (calm (seconds 300)) ev
             Hreq Hct eq_refl eq_refl), Hp.
  reflexivity.
Defined.



(** * Further properties of the handlers *)

(** ** Routing *)

Lemma lambda_handler_other_route ttl names env ev w :
  ¬ is_click_log_request ev →
  ¬ is_update_lead_request ev →
  lambda_handler ttl names env ev w = response 404 "Invalid path" w.
Proof.
  unfold is_click_log_request, is_update_lead_request, lambda_handler.
  intros Hclick Hlead.
  destruct (rawPath ev) as [p|]; cbn [default from_option id].
  - repeat case_bool_decide; subst; cbn [andb]; try reflexivity;
      exfalso; auto.
  - reflexivity.
Qed.

(** X1: an event that is neither a POST to /outbound-click-logs nor a POST to
    /update-lead (another path, another method, or no path at all) is
    answered 404 "Invalid path"; nothing is called and the table is left
    alone. *)
Theorem unknown_route_is_404 ttl names env ev w :
  ¬ is_click_log_request ev →
  ¬ is_update_lead_request ev →
  lambda_handler ttl names env ev w
  = (Ok (Some {| statusCode := 404; message := "Invalid path" |}), w).
Proof. intros Hclick Hlead. by rewrite lambda_handler_other_route. Qed.

Lemma unknown_route_is_404_witness :
  let ev :=
    {| rawPath := Some "/update-lead";
       method := "GET";
       queryStringParameters := Some message_received_query;
       body := form_payload (lead_added "42") |} in
  ¬ is_click_log_request ev
  ∧ ¬ is_update_lead_request ev
  ∧ lambda_handler 15 [] (calm (seconds 300)) ev
      (initial {[ 900 := beacon_item ]})
    = (Ok (Some {| statusCode := 404; message := "Invalid path" |}),
       initial {[ 900 := beacon_item ]}).
Proof.
  intros ev.
  assert (H1 : ¬ is_click_log_request ev) by (intros [H _]; discriminate H).
  assert (H2 : ¬ is_update_lead_request ev) by (intros [_ H]; discriminate H).
  split; [exact H1|]. split; [exact H2|].
  exact (unknown_route_is_404 15 [] (calm (seconds 300)) ev
           (initial {[ 900 := beacon_item ]}) H1 H2).
Defined.

(** X2: a lead-update request without a [conversion_type] parameter (or
    without any query string) ends in an uncaught [AttributeError], raised by
    [None.upper()], before anything is called. *)
Theorem missing_conversion_type_raises ttl names env ev w :
  is_update_lead_request ev →
  query_string_params ev !! "conversion_type" = None →
  lambda_handler ttl names env ev w = (Raise AttributeError, w).
Proof.
  intros Hreq Hkey.
  rewrite (lambda_handler_update_lead_raise _ _ _ _ AttributeError Hreq);
    [done|].
  unfold conversion_type_of. by rewrite Hkey.
Qed.

Lemma missing_conversion_type_raises_witness :
  let ev :=
    {| rawPath := Some "/update-lead";
       method := "POST";
       queryStringParameters := None;
       body := form_payload (lead_added "42") |} in
  is_update_lead_request ev
  ∧ query_string_params ev !! "conversion_type" = None
  ∧ lambda_handler 15 [] (calm (seconds 300)) ev
      (initial {[ 900 := beacon_item ]})
    = (Raise AttributeError, initial {[ 900 := beacon_item ]}).
Proof.
  intros ev.
  assert (Hreq : is_update_lead_request ev) by (split; reflexivity).
  assert (Hkey : query_string_params ev !! "conversion_type" = None)
    by reflexivity.
  split; [exact Hreq|]. split; [exact Hkey|].
  exact (missing_conversion_type_raises 15 [] (calm (seconds 300)) ev
           (initial {[ 900 := beacon_item ]}) Hreq Hkey).
Defined.

(** ** Conversion uploads without matching *)

Lemma extract_lead_id_run ev payload lead_id :
  decode_form ev = Ok payload →
  payload !! "leads[status][0][id]" = Some lead_id →
  extract_lead_id ev = ret lead_id.
Proof.
  intros Hform Hlead. unfold extract_lead_id, payload_getitem.
  by rewrite Hform, bind_lift_Ok, Hlead.
Qed.

Lemma payload_getitem_missing ev payload k :
  decode_form ev = Ok payload →
  payload !! k = None →
  payload_getitem ev k = raise KeyError.
Proof.
  intros Hform Hk. unfold payload_getitem.
  by rewrite Hform, bind_lift_Ok, Hk.
Qed.

(** [upload_conversion_handler] once the lead id is known. *)
Lemma upload_conversion_handler_with_lead env ev ct lead_id w :
  upload_conversion_handler env ev ct (Some lead_id) w
  = match kommo_construct_raw_lead_exn env with
    | Some RuntimeError =>
        (Ok (Some {| statusCode := 500;
                     message :=
                       "Something went wrong while persisting the click log." |}),
         {| table := table w;
            calls := calls w ++ [KommoConstructRawLead lead_id] |})
    | Some e =>
        (Raise e,
         {| table := table w;
            calls := calls w ++ [KommoConstructRawLead lead_id] |})
    | None =>
        (match upload_offline_conversion_exn env with
         | None =>
             Ok (Some {| statusCode := 200;
                         message := "Conversion uploaded successfully." |})
         | Some RuntimeError =>
             Ok (Some {| statusCode := 500;
                         message :=
                           "Something went wrong while persisting the click log." |})
         | Some e => Raise e
         end,
         {| table := table w;
            calls := calls w ++ [KommoConstructRawLead lead_id;
                                 AdsUploadOfflineConversion lead_id ct] |})
    end.
Proof.
  unfold upload_conversion_handler. rewrite bind_ret.
  unfold try_except_RuntimeError, kommo_construct_raw_lead,
    upload_offline_conversion, bind, log_call, outcome.
  destruct (kommo_construct_raw_lead_exn env) as [[]|]; try reflexivity.
  cbn. rewrite <- app_assoc.
  destruct (upload_offline_conversion_exn env) as [[]|]; reflexivity.
Qed.

(** The two paths that upload without matching, once the payload has the
    field the path reads. *)
Lemma run_path_upload env p ev ct payload lead_id :
  p = ManualUploadPath ∨ p = DirectUploadPath →
  decode_form ev = Ok payload →
  payload !! id_field p = Some lead_id →
  run_path env p ev ct = upload_conversion_handler env ev ct (Some lead_id).
Proof.
  intros [-> | ->] Hform Hlead; cbn [run_path id_field] in *.
  - by rewrite (extract_incoming_lead_id_run _ _ _ Hform Hlead), bind_ret.
  - unfold upload_conversion_handler.
    by rewrite (extract_lead_id_run _ _ _ Hform Hlead).
Qed.

(** X3: a lead-update request without the adjustment flag and with a
    conversion type other than MESSAGE_RECEIVED uploads the conversion
    directly, whatever the manual flag: the lead id is the status-changed
    field [leads[status][0][id]], the raw lead is built by the CRM and then
    uploaded, the table is neither read nor written, and the answer is 200, or
    500 when the upload raises [RuntimeError]. *)
Theorem direct_upload_reads_status_changed_id
    ttl names env ev ct payload lead_id w :
  is_update_lead_request ev →
  conversion_type_of names ev = Ok ct →
  ct ≠ MESSAGE_RECEIVED →
  is_conversion_adjustment ev = false →
  decode_form ev = Ok payload →
  payload !! "leads[status][0][id]" = Some lead_id →
  kommo_construct_raw_lead_exn env = None →
  let run := lambda_handler ttl names env ev w in
  new_calls w run
  = [KommoConstructRawLead lead_id; AdsUploadOfflineConversion lead_id ct]
  ∧ table (world_of run) = table w
  ∧ (upload_offline_conversion_exn env = None →
     result_of run
     = Ok (Some {| statusCode := 200;
                   message := "Conversion uploaded successfully." |}))
  ∧ (upload_offline_conversion_exn env = Some RuntimeError →
     status_of run = Some 500).
Proof.
  intros Hreq Hct Hne Hadj Hform Hlead Hraw run. subst run.
  rewrite (lambda_handler_update_lead _ _ _ _ _ Hreq Hct), Hadj.
  unfold select_path. rewrite (bool_decide_eq_false_2 _ Hne).
  rewrite (run_path_upload env DirectUploadPath ev ct payload lead_id)
    by auto.
  rewrite upload_conversion_handler_with_lead, Hraw, new_calls_app.
  repeat split; intros ->; reflexivity.
Qed.

Lemma direct_upload_reads_status_changed_id_witness :
  let ev := update_lead_request qualified_query (both_ids "1" "2") in
  let w := initial {[ 900 := beacon_item ]} in
  let run :=
    lambda_handler 15 ["LEAD_CREATED"; "QUALIFIED"] (calm (seconds 300)) ev w in
  is_update_lead_request ev
  ∧ OtherConversion "QUALIFIED" ≠ MESSAGE_RECEIVED
  ∧ new_calls w run
    = [KommoConstructRawLead "2";
       AdsUploadOfflineConversion "2" (OtherConversion "QUALIFIED")]
  ∧ table (world_of run) = {[ 900 := beacon_item ]}
  ∧ status_of run = Some 200.
Proof.
  intros ev w run.
  assert (Hreq : is_update_lead_request ev) by (split; reflexivity).
  assert (Hne : OtherConversion "QUALIFIED" ≠ MESSAGE_RECEIVED)
    by discriminate.
  destruct (direct_upload_reads_status_changed_id 15
              ["LEAD_CREATED"; "QUALIFIED"] (calm (seconds 300)) ev
              (OtherConversion "QUALIFIED") (both_ids "1" "2") "2" w
              Hreq eq_refl Hne eq_refl eq_refl eq_refl eq_refl)
    as (Hcalls & Htable & Hok & _).
  split; [exact Hreq|]. split; [exact Hne|]. split; [exact Hcalls|].
  split; [exact Htable|].
  unfold status_of. specialize (Hok eq_refl). unfold result_of in Hok.
  fold run in Hok. rewrite Hok. reflexivity.
Defined.

(** X4: a MESSAGE_RECEIVED request flagged manual (and not adjustment)
    bypasses the matcher: the lead id is the lead-added field, the raw lead
    is built and uploaded, and the table is neither queried nor changed, so a
    pending click stays unmatched. *)
Theorem manual_upload_bypasses_matcher ttl names env ev payload lead_id w :
  is_update_lead_request ev →
  conversion_type_of names ev = Ok MESSAGE_RECEIVED →
  is_conversion_adjustment ev = false →
  is_manual_import ev = true →
  decode_form ev = Ok payload →
  payload !! "leads[add][0][id]" = Some lead_id →
  kommo_construct_raw_lead_exn env = None →
  let run := lambda_handler ttl names env ev w in
  new_calls w run
  = [KommoConstructRawLead lead_id;
     AdsUploadOfflineConversion lead_id MESSAGE_RECEIVED]
  ∧ table (world_of run) = table w
  ∧ (upload_offline_conversion_exn env = None →
     result_of run
     = Ok (Some {| statusCode := 200;
                   message := "Conversion uploaded successfully." |}))
  ∧ (upload_offline_conversion_exn env = Some RuntimeError →
     status_of run = Some 500).
Proof.
  intros Hreq Hct Hadj Hman Hform Hlead Hraw run. subst run.
  rewrite (lambda_handler_update_lead _ _ _ _ _ Hreq Hct), Hadj, Hman.
  cbn [select_path]. rewrite bool_decide_eq_true_2 by done.
  rewrite (run_path_upload env ManualUploadPath ev MESSAGE_RECEIVED payload
             lead_id) by auto.
  rewrite upload_conversion_handler_with_lead, Hraw, new_calls_app.
  repeat split; intros ->; reflexivity.
Qed.

Lemma manual_upload_bypasses_matcher_witness :
  let ev := update_lead_request manual_query (lead_added "42") in
  let w := initial {[ 900 := beacon_item ]} in
  let run := lambda_handler 15 [] (calm (seconds 300)) ev w in
  is_update_lead_request ev
  ∧ is_manual_import ev = true
  ∧ new_calls w run
    = [KommoConstructRawLead "42";
       AdsUploadOfflineConversion "42" MESSAGE_RECEIVED]
  ∧ table (world_of run) = {[ 900 := beacon_item ]}
  ∧ status_of run = Some 200.
Proof.
  intros ev w run.
  assert (Hreq : is_update_lead_request ev) by (split; reflexivity).
  destruct (manual_upload_bypasses_matcher 15 [] (calm (seconds 300)) ev
              (lead_added "42") "42" w
              Hreq eq_refl eq_refl eq_refl eq_refl eq_refl eq_refl)
    as (Hcalls & Htable & Hok & _).
  split; [exact Hreq|]. split; [reflexivity|]. split; [exact Hcalls|].
  split; [exact Htable|].
  unfold status_of. specialize (Hok eq_refl). unfold result_of in Hok.
  fold run in Hok. rewrite Hok. reflexivity.
Defined.

(** X5: on the two paths that upload without matching, a CRM that raises
    [RuntimeError] while building the raw lead is answered 500 with the
    click-log message; the conversion upload is not attempted and the table
    is untouched. *)
Theorem raw_lead_failure_stops_upload env p ev ct payload lead_id w :
  p = ManualUploadPath ∨ p = DirectUploadPath →
  decode_form ev = Ok payload →
  payload !! id_field p = Some lead_id →
  kommo_construct_raw_lead_exn env = Some RuntimeError →
  run_path env p ev ct w
  = (Ok (Some {| statusCode := 500;
                 message :=
                   "Something went wrong while persisting the click log." |}),
     {| table := table w;
        calls := calls w ++ [KommoConstructRawLead lead_id] |}).
Proof.
  intros Hp Hform Hlead Hraw.
  rewrite (run_path_upload env p ev ct payload lead_id Hp Hform Hlead).
  by rewrite upload_conversion_handler_with_lead, Hraw.
Qed.

Lemma raw_lead_failure_stops_upload_witness :
  let ev := update_lead_request qualified_query (status_changed "7") in
  let env := failing OpKommoConstructRawLead RuntimeError (seconds 300) in
  (DirectUploadPath = ManualUploadPath ∨ DirectUploadPath = DirectUploadPath)
  ∧ kommo_construct_raw_lead_exn env = Some RuntimeError
  ∧ run_path env DirectUploadPath ev (OtherConversion "QUALIFIED")
      (initial {[ 900 := beacon_item ]})
    = (Ok (Some {| statusCode := 500;
                   message :=
                     "Something went wrong while persisting the click log." |}),
       {| table := {[ 900 := beacon_item ]};
          calls := [KommoConstructRawLead "7"] |}).
Proof.
  intros ev env.
  assert (Hp : DirectUploadPath = ManualUploadPath
               ∨ DirectUploadPath = DirectUploadPath) by (right; reflexivity).
  split; [exact Hp|]. split; [reflexivity|].
  exact (raw_lead_failure_stops_upload env DirectUploadPath ev
           (OtherConversion "QUALIFIED") (status_changed "7") "7"
           (initial {[ 900 := beacon_item ]}) Hp eq_refl eq_refl eq_refl).
Defined.

(** X6: when the payload lacks the field a path reads its lead id from, the
    path ends in an uncaught [KeyError] and calls neither the CRM nor the ads
    platform. The three paths that do not match raise before any call; the
    matched-lead path has queried the table by then. *)
Theorem missing_lead_id_raises_KeyError env p ev ct payload w :
  decode_form ev = Ok payload →
  payload !! id_field p = None →
  query_exn env = None →
  run_path env p ev ct w
  = (Raise KeyError,
     if bool_decide (p = MatchedLeadPath)
     then {| table := table w; calls := calls w ++ [TableQuery] |}
     else w).
Proof.
  intros Hform Hlead Hq. destruct p; cbn [run_path id_field] in *.
  - by rewrite (upload_conversion_adjustment_handler_no_lead _ _ _ _ _
                  Hform Hlead).
  - unfold extract_incoming_lead_id.
    by rewrite (payload_getitem_missing _ _ _ Hform Hlead).
  - unfold update_lead_handler, extract_incoming_lead_id.
    rewrite (payload_getitem_missing _ _ _ Hform Hlead).
    rewrite (bind_apply (table_query env)), (table_query_run _ _ Hq).
    reflexivity.
  - unfold upload_conversion_handler, extract_lead_id.
    by rewrite (payload_getitem_missing _ _ _ Hform Hlead).
Qed.

Lemma missing_lead_id_raises_KeyError_witness :
  let ev := update_lead_request message_received_query (status_changed "7") in
  let w := initial {[ 900 := beacon_item ]} in
  decode_form ev = Ok (status_changed "7")
  ∧ status_changed "7" !! id_field MatchedLeadPath = None
  ∧ run_path (calm (seconds 300)) MatchedLeadPath ev MESSAGE_RECEIVED w
    = (Raise KeyError,
       {| table := {[ 900 := beacon_item ]}; calls := [TableQuery] |}).
Proof.
  intros ev w. split; [reflexivity|]. split; [reflexivity|].
  exact (missing_lead_id_raises_KeyError (calm (seconds 300)) MatchedLeadPath
           ev MESSAGE_RECEIVED (status_changed "7") w
           eq_refl eq_refl eq_refl).
Defined.

(** ** What the handlers may do to the table *)

Section TableEffect.

Context {A B : Type}.
Implicit Types (R : Store → Store → Prop) (m : M A) (k : A → M B).

Lemma table_effect_ret R (a : A) : (∀ s, R s s) → table_effect R (ret a).
Proof. intros Hrefl w. apply Hrefl. Qed.

Lemma table_effect_raise R (e : Exn) :
  (∀ s, R s s) → table_effect R (raise e : M A).
Proof. intros Hrefl w. apply Hrefl. Qed.

Lemma table_effect_lift R (r : Result A) :
  (∀ s, R s s) → table_effect R (lift r).
Proof. intros Hrefl w. apply Hrefl. Qed.

Lemma table_effect_same R m :
  (∀ s, R s s) → table_effect eq m → table_effect R m.
Proof. intros Hrefl Hm w. rewrite <- (Hm w). apply Hrefl. Qed.

(** A computation that leaves the table alone, then one with effect [R]. *)
Lemma table_effect_bind_after R m k :
  table_effect eq m → (∀ a, table_effect R (k a)) → (∀ s, R s s) →
  table_effect R (bind m k).
Proof.
  intros Hm Hk Hrefl w. rewrite bind_apply. specialize (Hm w).
  destruct (m w) as [[a|e] w1]; cbn in *; rewrite Hm.
  - apply Hk.
  - apply Hrefl.
Qed.

(** A computation with effect [R], then one that leaves the table alone. *)
Lemma table_effect_bind_before R m k :
  table_effect R m → (∀ a, table_effect eq (k a)) →
  table_effect R (bind m k).
Proof.
  intros Hm Hk w. rewrite bind_apply. specialize (Hm w).
  destruct (m w) as [[a|e] w1]; cbn in *; [|done].
  by rewrite <- (Hk a w1).
Qed.

Lemma table_effect_try R (body handler : M A) :
  table_effect R body → table_effect eq handler →
  table_effect R (try_except_RuntimeError body handler).
Proof.
  intros Hbody Hhandler w. unfold try_except_RuntimeError.
  specialize (Hbody w). destruct (body w) as [[a|[]] w1]; cbn in *; try done.
  by rewrite <- (Hhandler w1).
Qed.

End TableEffect.

Lemma table_effect_log_call c : table_effect eq (log_call c).
Proof. by intros w. Qed.

Lemma table_effect_outcome o : table_effect eq (outcome o).
Proof. intros w. by destruct o. Qed.

Lemma table_effect_response code msg : table_effect eq (response code msg).
Proof. by intros w. Qed.

(** A logged call that only answers or raises. *)
Lemma table_effect_call c o :
  table_effect eq (bind (log_call c) (λ _, outcome o)).
Proof. intros w. by destruct o. Qed.

Lemma table_effect_item_getitem it k : table_effect eq (item_getitem it k).
Proof. intros w. unfold item_getitem. by destruct (it !! k). Qed.

Lemma table_effect_payload_getitem ev k : table_effect eq (payload_getitem ev k).
Proof.
  intros w. unfold payload_getitem, bind, lift.
  destruct (decode_form ev) as [payload|e]; [|done].
  by destruct (payload !! k).
Qed.

Lemma table_effect_table_query env : table_effect eq (table_query env).
Proof.
  intros w. unfold table_query, bind, log_call, outcome.
  by destruct (query_exn env).
Qed.

Lemma table_effect_kommo_construct_raw_lead env lead_id :
  table_effect eq (kommo_construct_raw_lead env lead_id).
Proof.
  intros w. unfold kommo_construct_raw_lead, bind, log_call, outcome.
  by destruct (kommo_construct_raw_lead_exn env).
Qed.

Create HintDb table_effects.

#[local] Hint Resolve table_effect_log_call table_effect_outcome
  table_effect_response table_effect_call table_effect_item_getitem
  table_effect_payload_getitem table_effect_table_query
  table_effect_kommo_construct_raw_lead : table_effects.

#[local] Hint Extern 1 (table_effect eq (ret _)) =>
  apply table_effect_ret; reflexivity : table_effects.
#[local] Hint Extern 1 (table_effect eq (raise _)) =>
  apply table_effect_raise; reflexivity : table_effects.
#[local] Hint Extern 1 (table_effect eq (lift _)) =>
  apply table_effect_lift; reflexivity : table_effects.
#[local] Hint Extern 2 (table_effect eq (bind _ _)) =>
  apply table_effect_bind_before; [|intros] : table_effects.
#[local] Hint Extern 2 (table_effect eq (try_except_RuntimeError _ _)) =>
  apply table_effect_try : table_effects.

Lemma table_effect_upload_conversion_handler env ev ct lead_id :
  table_effect eq (upload_conversion_handler env ev ct lead_id).
Proof.
  unfold upload_conversion_handler, extract_lead_id, upload_offline_conversion.
  destruct lead_id; auto 10 with table_effects.
Qed.

Lemma table_effect_upload_conversion_adjustment_handler env ev ct :
  table_effect eq (upload_conversion_adjustment_handler env ev ct).
Proof.
  unfold upload_conversion_adjustment_handler, extract_incoming_lead_id,
    upload_offline_conversion_adjustment.
  auto 10 with table_effects.
Qed.

Lemma claimed_at_most_one_refl s : claimed_at_most_one s s.
Proof. by left. Qed.

Lemma table_effect_table_update_item env v :
  table_effect claimed_at_most_one (table_update_item env v).
Proof.
  intros w. unfold table_update_item, bind, log_call, outcome.
  destruct (update_item_exn env); [by left|].
  destruct v; cbn; try by left. right. by eexists.
Qed.

Lemma table_effect_update_lead env items ct lead_id :
  table_effect claimed_at_most_one (update_lead env items ct lead_id).
Proof.
  unfold update_lead, kommo_update_lead_organic, kommo_update_lead_cpc,
    upload_offline_conversion.
  destruct items as [|item0 rest].
  { apply table_effect_same; [apply claimed_at_most_one_refl|].
    auto 10 with table_effects. }
  apply table_effect_bind_after;
    [auto with table_effects | | apply claimed_at_most_one_refl].
  intros bound.
  apply table_effect_bind_after;
    [auto with table_effects | | apply claimed_at_most_one_refl].
  intros [|]; [|apply table_effect_ret, claimed_at_most_one_refl].
  do 3 (apply table_effect_bind_after;
          [auto with table_effects | intros ? | apply claimed_at_most_one_refl]).
  apply table_effect_try; [|auto with table_effects].
  apply table_effect_bind_before; [apply table_effect_table_update_item|].
  intros _. auto 12 with table_effects.
Qed.

Lemma table_effect_update_lead_handler env ct ev :
  table_effect claimed_at_most_one (update_lead_handler env ct ev).
Proof.
  unfold update_lead_handler, extract_incoming_lead_id.
  apply table_effect_bind_after;
    [auto with table_effects | | apply claimed_at_most_one_refl].
  intros items.
  apply table_effect_bind_after;
    [auto with table_effects | | apply claimed_at_most_one_refl].
  intros lead_id. apply table_effect_update_lead.
Qed.

Lemma table_effect_run_path env p ev ct :
  table_effect claimed_at_most_one (run_path env p ev ct).
Proof.
  destruct p; cbn [run_path].
  - apply table_effect_same; [apply claimed_at_most_one_refl|].
    apply table_effect_upload_conversion_adjustment_handler.
  - apply table_effect_same; [apply claimed_at_most_one_refl|].
    unfold extract_incoming_lead_id.
    apply table_effect_bind_before; [auto with table_effects|].
    intros lead_id. apply table_effect_upload_conversion_handler.
  - apply table_effect_update_lead_handler.
  - apply table_effect_same; [apply claimed_at_most_one_refl|].
    apply table_effect_upload_conversion_handler.
Qed.

(** Requests are of one of three kinds. *)
Lemma request_kinds ttl names env ev :
  (is_click_log_request ev
   ∧ lambda_handler ttl names env ev = click_log_handler ttl env ev)
  ∨ (is_update_lead_request ev
     ∧ ((∃ ct, conversion_type_of names ev = Ok ct
               ∧ lambda_handler ttl names env ev
                 = run_path env
                     (select_path ct (is_conversion_adjustment ev)
                        (is_manual_import ev)) ev ct)
        ∨ (∃ e, conversion_type_of names ev = Raise e
                ∧ lambda_handler ttl names env ev = raise e)))
  ∨ (¬ is_click_log_request ev ∧ ¬ is_update_lead_request ev
     ∧ ∀ w, lambda_handler ttl names env ev w
            = response 404 "Invalid path" w).
Proof.
  destruct (decide (is_click_log_request ev)) as [Hclick|Hclick].
  { left. split; [done|]. by apply lambda_handler_click_log. }
  destruct (decide (is_update_lead_request ev)) as [Hlead|Hlead].
  - right; left. split; [done|].
    destruct (conversion_type_of names ev) as [ct|e] eqn:Hct.
    + left. exists ct. split; [done|]. by apply lambda_handler_update_lead.
    + right. exists e. split; [done|].
      by apply lambda_handler_update_lead_raise.
  - right; right. split; [done|]. split; [done|].
    intros w. by apply lambda_handler_other_route.
Qed.

Lemma table_effect_lambda_handler_not_click_log ttl names env ev :
  ¬ is_click_log_request ev →
  table_effect claimed_at_most_one (lambda_handler ttl names env ev).
Proof.
  intros Hnot w.
  destruct (request_kinds ttl names env ev)
    as [[Hclick _] | [[_ [(ct & _ & ->) | (e & _ & ->)]] | (_ & _ & Hrun)]].
  - done.
  - apply table_effect_run_path.
  - by left.
  - rewrite Hrun. by left.
Qed.

(** What one [update_item] does to the entries that were there. *)
Lemma update_item_lookup s k0 k it :
  s !! k = Some it →
  update_item k0 s !! k = Some it
  ∨ update_item k0 s !! k = Some (<["matched" := PBool true]> it).
Proof.
  intros Hk. unfold update_item.
  destruct (decide (k0 = k)) as [->|Hne].
  - right. rewrite lookup_insert_eq, Hk. done.
  - left. by rewrite lookup_insert_ne.
Qed.

(** X7: a request that is not a click log — a lead update on any path, with
    any payload and whichever collaborator raising, or an unknown route —
    leaves the table as it was or applies one [update_item] to it: every
    entry that was there is still there, either unchanged or with [matched]
    set to [True] and nothing else changed. No such request removes an entry,
    rewrites click data or turns [matched] back to [False]. *)
Theorem lead_update_only_sets_matched ttl names env ev w :
  ¬ is_click_log_request ev →
  let s' := table (world_of (lambda_handler ttl names env ev w)) in
  claimed_at_most_one (table w) s'
  ∧ ∀ k it,
      table w !! k = Some it →
      s' !! k = Some it ∨ s' !! k = Some (<["matched" := PBool true]> it).
Proof.
  intros Hnot s'.
  pose proof (table_effect_lambda_handler_not_click_log ttl names env ev
                Hnot w) as Heff.
  fold (world_of (lambda_handler ttl names env ev w)) in Heff. fold s' in Heff.
  split; [exact Heff|].
  intros k it Hk. destruct Heff as [-> | [k0 ->]]; [by left|].
  by apply update_item_lookup.
Qed.

Lemma lead_update_only_sets_matched_witness :
  let ev := update_lead_request message_received_query (lead_added "42") in
  let w := initial {[ 900 := beacon_item; 1000 := newer_item ]} in
  let s' :=
    table (world_of (lambda_handler 15 [] (calm (seconds 300)) ev w)) in
  ¬ is_click_log_request ev
  ∧ s' !! 900 = Some beacon_item
  ∧ s' !! 1000 = Some (<["matched" := PBool true]> newer_item).
Proof.
  intros ev w s'.
  assert (Hnot : ¬ is_click_log_request ev) by (intros [H _]; discriminate H).
  destruct (lead_update_only_sets_matched 15 [] (calm (seconds 300)) ev w Hnot)
    as [_ Hframe].
  split; [exact Hnot|]. split.
  - destruct (Hframe 900 beacon_item eq_refl) as [H | H]; [exact H|].
    reflexivity.
  - destruct (Hframe 1000 newer_item eq_refl) as [H | H]; [|exact H].
    reflexivity.
Defined.

(** ** What a click log may do to the table *)

Lemma click_log_handler_table ttl env ev w :
  let s' := table (world_of (click_log_handler ttl env ev w)) in
  s' = table w
  ∨ (status_of (click_log_handler ttl env ev w) = Some 200
     ∧ ∃ b, json_loads_body ev = Ok (JObject b)
            ∧ s' = put_item (int_timestamp (now env + timedelta_minutes ttl))
                     (click_item b (now env)
                        (now env + timedelta_minutes ttl))
                     (table w)).
Proof.
  intros s'. subst s'.
  destruct (json_loads_body ev) as [[b|]|e] eqn:Hb.
  - rewrite (click_log_handler_object _ _ _ _ Hb).
    destruct (_ || _); [|by left].
    rewrite persist_clicklog_to_db_run.
    destruct (put_item_exn env) as [[]|]; try by left.
    right. split; [done|]. by exists b.
  - left. unfold click_log_handler. by rewrite Hb.
  - left. unfold click_log_handler. by rewrite Hb.
Qed.

(** X8: a click-log request writes at most one key of the table, the second
    in which its own entry expires; every other key holds what it held
    before, and when the answer is not 200 the whole table is as it was. *)
Theorem click_log_touches_only_its_key ttl names env ev w :
  is_click_log_request ev →
  let run := lambda_handler ttl names env ev w in
  (∀ k, k ≠ int_timestamp (now env + timedelta_minutes ttl) →
        table (world_of run) !! k = table w !! k)
  ∧ (status_of run ≠ Some 200 → table (world_of run) = table w).
Proof.
  intros Hreq run. subst run.
  rewrite (lambda_handler_click_log _ _ _ _ Hreq).
  destruct (click_log_handler_table ttl env ev w) as [-> | (H200 & b & _ & ->)].
  - done.
  - split; [|done]. intros k Hk. unfold put_item. by rewrite lookup_insert_ne.
Qed.

Lemma click_log_touches_only_its_key_witness :
  let ev := click_request (json_object beacon) in
  let w := initial {[ 900 := <["matched" := PBool true]> beacon_item ]} in
  let run := lambda_handler 15 [] (calm (seconds 100)) ev w in
  is_click_log_request ev
  ∧ 900 ≠ int_timestamp (now (calm (seconds 100)) + timedelta_minutes 15)
  ∧ table (world_of run) !! 900
    = Some (<["matched" := PBool true]> beacon_item).
Proof.
  intros ev w run.
  assert (Hreq : is_click_log_request ev) by (split; reflexivity).
  assert (Hne : 900 ≠ int_timestamp (now (calm (seconds 100))
                                      + timedelta_minutes 15))
    by (by vm_compute).
  destruct (click_log_touches_only_its_key 15 [] (calm (seconds 100)) ev w
              Hreq) as [Hframe _].
  split; [exact Hreq|]. split; [exact Hne|].
  exact (Hframe 900 Hne).
Defined.

(** ** The key of an entry is its expiry *)






(** ** From the click to the lead *)

Lemma newest_put_item (s : Store) k it :
  (∀ k', is_Some (s !! k') → k' ≤ k) →
  newest (put_item k it s) = Some (k, it).
Proof.
  intros Hmax.
  apply (is_newest_unique (put_item k it s)); [apply newest_is_newest|].
  unfold put_item. split; [apply lookup_insert_eq|].
  intros k' Hk'. destruct (decide (k' = k)) as [->|Hne]; [lia|].
  rewrite lookup_insert_ne in Hk' by done. by apply Hmax.
Qed.

Lemma click_item_gclid b c e :
  click_item b c e !! "gclid" = Some (dict_get b "gclid").
Proof. reflexivity. Qed.

Lemma click_item_page_path b c e :
  click_item b c e !! "page_path" = Some (dict_get b "page_path").
Proof. reflexivity. Qed.

Lemma click_item_gbraid b c e :
  dict_get (click_item b c e) "gbraid" = dict_get b "gbraid".
Proof. reflexivity. Qed.

Lemma query_unmatched_newest (s : Store) k it :
  newest s = Some (k, it) →
  it !! "matched" = Some (PBool false) →
  query s = [it].
Proof.
  intros Hn Hun. unfold query, unmatched. rewrite Hn.
  by rewrite bool_decide_eq_true_2.
Qed.

(** The matched-lead path on a table whose newest entry is pending and
    alive, every collaborator answering. *)
Lemma update_lead_handler_matched
    env ct ev payload lead_id k it gclid page_path w :
  newest (table w) = Some (k, it) →
  it !! "matched" = Some (PBool false) →
  it !! "expires_at" = Some (PInt k) →
  it !! "gclid" = Some gclid →
  it !! "page_path" = Some page_path →
  now env ≤ k * 1000000 →
  collaborators_answer env →
  decode_form ev = Ok payload →
  payload !! "leads[add][0][id]" = Some lead_id →
  update_lead_handler env ct ev w
  = (Ok (Some {| statusCode := 200;
                 message := "Lead updated with matched gclid." |}),
     {| table := update_item k (table w);
        calls := calls w
                 ++ [TableQuery;
                     TableUpdateItem (PInt k);
                     KommoUpdateLeadCpc lead_id gclid (dict_get it "gbraid")
                       page_path;
                     KommoConstructRawLead lead_id;
                     AdsUploadOfflineConversion lead_id ct] |}).
Proof.
  intros Hn Hun Hexp Hg Hp Hlive (Hq & _ & Hu & Hc & Hr & Ha & _) Hform Hlead.
  rewrite (update_lead_handler_run _ _ _ _ _ _ Hq Hform Hlead).
  rewrite (query_unmatched_newest _ _ _ Hn Hun).
  rewrite (update_lead_matched env it [] k gclid page_path) by done.
  cbn [table calls]. by rewrite <- app_assoc.
Qed.

(** X10: a click log that is accepted and stored under a key no older entry
    exceeds, followed by a MESSAGE_RECEIVED lead webhook (neither adjustment
    nor manual) that arrives no later than the stored expiry while every
    collaborator answers: the lead is tagged cpc with the gclid, gbraid and
    page path of that click-log body, its conversion is uploaded, the answer
    is 200 and the entry ends up matched. *)
Theorem click_then_lead_is_attributed
    ttl names env1 env2 ev1 ev2 b payload lead_id w :
  is_click_log_request ev1 →
  json_loads_body ev1 = Ok (JObject b) →
  truthy (dict_get b "gclid") || truthy (dict_get b "gbraid") = true →
  put_item_exn env1 = None →
  let k := int_timestamp (now env1 + timedelta_minutes ttl) in
  (∀ k', is_Some (table w !! k') → k' ≤ k) →
  is_update_lead_request ev2 →
  conversion_type_of names ev2 = Ok MESSAGE_RECEIVED →
  is_conversion_adjustment ev2 = false →
  is_manual_import ev2 = false →
  decode_form ev2 = Ok payload →
  payload !! "leads[add][0][id]" = Some lead_id →
  collaborators_answer env2 →
  now env2 ≤ k * 1000000 →
  let w1 := world_of (lambda_handler ttl names env1 ev1 w) in
  let run := lambda_handler ttl names env2 ev2 w1 in
  result_of run
  = Ok (Some {| statusCode := 200;
                message := "Lead updated with matched gclid." |})
  ∧ new_calls w1 run
    = [TableQuery;
       TableUpdateItem (PInt k);
       KommoUpdateLeadCpc lead_id (dict_get b "gclid") (dict_get b "gbraid")
         (dict_get b "page_path");
       KommoConstructRawLead lead_id;
       AdsUploadOfflineConversion lead_id MESSAGE_RECEIVED]
  ∧ table (world_of run) !! k ≫= (.!! "matched") = Some (PBool true).
Proof.
  intros Hreq1 Hb Hid Hput k Hmax Hreq2 Hct Hadj Hman Hform Hlead Hcalm Hlive
    w1 run.
  assert (Hw1 : w1 = {| table := put_item k
                                   (click_item b (now env1)
                                      (now env1 + timedelta_minutes ttl))
                                   (table w);
                        calls := calls w
                                 ++ [TablePutItem
                                       (click_item b (now env1)
                                          (now env1 + timedelta_minutes ttl))] |}).
  { subst w1. rewrite (lambda_handler_click_log _ _ _ _ Hreq1).
    rewrite (click_log_handler_object _ _ _ _ Hb), Hid.
    by rewrite persist_clicklog_to_db_run, Hput. }
  subst run.
  rewrite (lambda_handler_update_lead _ _ _ _ _ Hreq2 Hct), Hadj, Hman.
  cbn [select_path]. rewrite bool_decide_eq_true_2 by done. cbn [run_path].
  rewrite (update_lead_handler_matched env2 MESSAGE_RECEIVED ev2 payload
             lead_id k
             (click_item b (now env1) (now env1 + timedelta_minutes ttl))
             (dict_get b "gclid") (dict_get b "page_path") w1);
    try done.
  - rewrite new_calls_app, click_item_gbraid.
    split; [done|]. split; [done|].
    cbn [world_of snd table]. unfold update_item.
    rewrite lookup_insert_eq. cbn. by rewrite lookup_insert_eq.
  - rewrite Hw1. cbn [table]. by apply newest_put_item.
Qed.

Lemma click_then_lead_is_attributed_witness :
  let ev1 := click_request (json_object beacon) in
  let ev2 := update_lead_request message_received_query (lead_added "42") in
  let w := initial ∅ in
  let w1 := world_of (lambda_handler 15 [] (calm (seconds 0)) ev1 w) in
  let run := lambda_handler 15 [] (calm (seconds 300)) ev2 w1 in
  is_click_log_request ev1
  ∧ is_update_lead_request ev2
  ∧ now (calm (seconds 300))
    ≤ int_timestamp (now (calm (seconds 0)) + timedelta_minutes 15) * 1000000
  ∧ status_of run = Some 200
  ∧ new_calls w1 run
    = [TableQuery;
       TableUpdateItem (PInt 900);
       KommoUpdateLeadCpc "42" (PStr "abc") PNone (PStr "/p");
       KommoConstructRawLead "42";
       AdsUploadOfflineConversion "42" MESSAGE_RECEIVED].
Proof.
  intros ev1 ev2 w w1 run.
  assert (Hreq1 : is_click_log_request ev1) by (split; reflexivity).
  assert (Hreq2 : is_update_lead_request ev2) by (split; reflexivity).
  assert (Hlive : now (calm (seconds 300))
                  ≤ int_timestamp (now (calm (seconds 0))
                                   + timedelta_minutes 15) * 1000000)
    by (by vm_compute).
  assert (Hmax : ∀ k', is_Some (table w !! k') →
                       k' ≤ int_timestamp (now (calm (seconds 0))
                                           + timedelta_minutes 15)).
  { intros k' [it Hk']. cbn in Hk'. by rewrite lookup_empty in Hk'. }
  assert (Hcalm : collaborators_answer (calm (seconds 300)))
    by (repeat split; reflexivity).
  destruct (click_then_lead_is_attributed 15 [] (calm (seconds 0))
              (calm (seconds 300)) ev1 ev2 beacon (lead_added "42") "42" w
              Hreq1 eq_refl eq_refl eq_refl Hmax Hreq2 eq_refl eq_refl eq_refl
              eq_refl eq_refl Hcalm Hlive) as (Hres & Hcalls & _).
  split; [exact Hreq1|]. split; [exact Hreq2|]. split; [exact Hlive|].
  split; [|exact Hcalls].
  unfold status_of. unfold result_of in Hres. fold w1 run in Hres.
  rewrite Hres. reflexivity.
Defined.

(** ** The attribution window *)




(** ** When a collaborator fails on the matched-lead path *)

(** X12: the click is consumed before the CRM is called. When the CRM lead
    update raises [RuntimeError] on a matched click, the request is answered
    500 but the entry stays matched, and a retry of the same webhook with
    every collaborator answering finds nothing to claim: the lead is tagged
    organic and no conversion is uploaded. *)
Theorem failed_lead_update_consumes_click
    env1 env2 ct ev payload lead_id k it gclid page_path w :
  newest (table w) = Some (k, it) →
  it !! "matched" = Some (PBool false) →
  it !! "expires_at" = Some (PInt k) →
  it !! "gclid" = Some gclid →
  it !! "page_path" = Some page_path →
  now env1 ≤ k * 1000000 →
  query_exn env1 = None →
  update_item_exn env1 = None →
  kommo_update_lead_exn env1 = Some RuntimeError →
  collaborators_answer env2 →
  decode_form ev = Ok payload →
  payload !! "leads[add][0][id]" = Some lead_id →
  let first := update_lead_handler env1 ct ev w in
  let retry := update_lead_handler env2 ct ev (world_of first) in
  status_of first = Some 500
  ∧ table (world_of first) !! k = Some (<["matched" := PBool true]> it)
  ∧ result_of retry
    = Ok (Some {| statusCode := 200;
                  message := "Lead updated with organic source." |})
  ∧ new_calls (world_of first) retry
    = [TableQuery; KommoUpdateLeadOrganic lead_id].
Proof.
  intros Hn Hun Hexp Hg Hp Hlive Hq1 Hu1 Hc1 (Hq2 & _ & _ & Hc2 & _)
    Hform Hlead first retry.
  pose proof (newest_is_newest (table w)) as Hs. rewrite Hn in Hs.
  destruct Hs as [Hk _].
  assert (Hfirst : first
                   = (Ok (Some {| statusCode := 500;
                                  message :=
                                    "Lead with cpc source could not be updated." |}),
                      {| table := update_item k (table w);
                         calls := (calls w ++ [TableQuery])
                                  ++ [TableUpdateItem (PInt k);
                                      KommoUpdateLeadCpc lead_id gclid
                                        (dict_get it "gbraid") page_path] |})).
  { subst first.
    rewrite (update_lead_handler_run _ _ _ _ _ _ Hq1 Hform Hlead).
    rewrite (query_unmatched_newest _ _ _ Hn Hun).
    by rewrite (update_lead_crm_fails env1 it [] k gclid page_path). }
  subst retry. rewrite Hfirst. cbn [world_of snd table].
  split; [done|]. split.
  { unfold update_item. by rewrite lookup_insert_eq, Hk. }
  rewrite (update_lead_handler_run _ _ _ _ _ _ Hq2 Hform Hlead).
  cbn [table calls].
  rewrite (query_after_claim _ _ _ Hn), update_lead_no_items, Hc2.
  split; [done|].
  unfold new_calls. cbn [snd calls].
  rewrite <- (app_assoc _ [TableQuery] [KommoUpdateLeadOrganic lead_id]).
  apply drop_app_length.
Qed.

Lemma failed_lead_update_consumes_click_witness :
  let ev := update_lead_request message_received_query (lead_added "42") in
  let w := initial {[ 900 := beacon_item ]} in
  let first :=
    update_lead_handler (failing OpKommoUpdateLead RuntimeError (seconds 300))
      MESSAGE_RECEIVED ev w in
  let retry :=
    update_lead_handler (calm (seconds 301)) MESSAGE_RECEIVED ev
      (world_of first) in
  newest (table w) = Some (900, beacon_item)
  ∧ now (failing OpKommoUpdateLead RuntimeError (seconds 300)) ≤ 900 * 1000000
  ∧ status_of first = Some 500
  ∧ new_calls (world_of first) retry
    = [TableQuery; KommoUpdateLeadOrganic "42"].
Proof.
  intros ev w first retry.
  assert (Hn : newest (table w) = Some (900, beacon_item)) by reflexivity.
  assert (Hlive : now (failing OpKommoUpdateLead RuntimeError (seconds 300))
                  ≤ 900 * 1000000) by (by vm_compute).
  assert (Hcalm : collaborators_answer (calm (seconds 301)))
    by (repeat split; reflexivity).
  destruct (failed_lead_update_consumes_click
              (failing OpKommoUpdateLead RuntimeError (seconds 300))
              (calm (seconds 301)) MESSAGE_RECEIVED ev (lead_added "42") "42"
              900 beacon_item (PStr "abc") (PStr "/p") w
              Hn eq_refl eq_refl eq_refl eq_refl Hlive eq_refl eq_refl eq_refl
              Hcalm eq_refl eq_refl) as (H500 & _ & _ & Hcalls).
  split; [exact Hn|]. split; [exact Hlive|]. split; [exact H500|].
  exact Hcalls.
Defined.

(** X13: when the claiming [update_item] itself raises [RuntimeError], the
    request is answered 500 "Lead with cpc source could not be updated.",
    neither the CRM nor the ads platform is called, and the table is as it
    was, so the click is still pending. *)
Theorem failed_claim_leaves_click_pending
    env ct ev payload lead_id k it gclid page_path w :
  query (table w) = [it] →
  it !! "expires_at" = Some (PInt k) →
  it !! "gclid" = Some gclid →
  it !! "page_path" = Some page_path →
  now env ≤ k * 1000000 →
  query_exn env = None →
  update_item_exn env = Some RuntimeError →
  decode_form ev = Ok payload →
  payload !! "leads[add][0][id]" = Some lead_id →
  update_lead_handler env ct ev w
  = (Ok (Some {| statusCode := 500;
                 message := "Lead with cpc source could not be updated." |}),
     {| table := table w;
        calls := calls w ++ [TableQuery; TableUpdateItem (PInt k)] |}).
Proof.
  intros Hitems Hexp Hg Hp Hlive Hq Hu Hform Hlead.
  rewrite (update_lead_handler_run _ _ _ _ _ _ Hq Hform Hlead), Hitems.
  rewrite (update_lead_live env it [] k gclid page_path) by done.
  unfold try_except_RuntimeError, table_update_item, bind, log_call, outcome.
  rewrite Hu. cbn. by rewrite <- app_assoc.
Qed.

Lemma failed_claim_leaves_click_pending_witness :
  let ev := update_lead_request message_received_query (lead_added "42") in
  let env := failing OpUpdateItem RuntimeError (seconds 300) in
  let w := initial {[ 900 := beacon_item ]} in
  query (table w) = [beacon_item]
  ∧ now env ≤ 900 * 1000000
  ∧ update_lead_handler env MESSAGE_RECEIVED ev w
    = (Ok (Some {| statusCode := 500;
                   message := "Lead with cpc source could not be updated." |}),
       {| table := {[ 900 := beacon_item ]};
          calls := [TableQuery; TableUpdateItem (PInt 900)] |}).
Proof.
  intros ev env w.
  assert (Hlive : now env ≤ 900 * 1000000) by (by vm_compute).
  split; [reflexivity|]. split; [exact Hlive|].
  exact (failed_claim_leaves_click_pending env MESSAGE_RECEIVED ev
           (lead_added "42") "42" 900 beacon_item (PStr "abc") (PStr "/p") w
           eq_refl eq_refl eq_refl eq_refl Hlive eq_refl eq_refl eq_refl
           eq_refl).
Defined.

(** X14: the table query of the matched-lead path is made outside any [try]
    block: whatever it raises, [RuntimeError] included, leaves
    [update_lead_handler] uncaught; the lead is not tagged, nothing is
    uploaded and the table is as it was. *)
Theorem query_failure_is_not_caught env ct ev e w :
  query_exn env = Some e →
  update_lead_handler env ct ev w
  = (Raise e, {| table := table w; calls := calls w ++ [TableQuery] |}).
Proof.
  intros Hq. unfold update_lead_handler.
  rewrite (bind_apply (table_query env)).
  unfold table_query, bind, log_call, outcome. by rewrite Hq.
Qed.

Lemma query_failure_is_not_caught_witness :
  let ev := update_lead_request message_received_query (lead_added "42") in
  let env := failing OpQuery RuntimeError (seconds 300) in
  query_exn env = Some RuntimeError
  ∧ lambda_handler 15 [] env ev (initial {[ 900 := beacon_item ]})
    = (Raise RuntimeError,
       {| table := {[ 900 := beacon_item ]}; calls := [TableQuery] |}).
Proof.
  intros ev env. split; [reflexivity|].
  transitivity (update_lead_handler env MESSAGE_RECEIVED ev
                  (initial {[ 900 := beacon_item ]})); [reflexivity|].
  exact (query_failure_is_not_caught env MESSAGE_RECEIVED ev RuntimeError
           (initial {[ 900 := beacon_item ]}) eq_refl).
Defined.

(** ** Leads without a click to claim *)

Lemma query_matched_newest (s : Store) k it :
  newest s = Some (k, it) →
  it !! "matched" ≠ Some (PBool false) →
  query s = [].
Proof.
  intros Hn Hm. unfold query, unmatched. rewrite Hn.
  by rewrite bool_decide_eq_false_2.
Qed.

(** X15: on the matched-lead path, when the query returns nothing — the
    table is empty, or its newest entry is already matched, whatever older
    entries are still pending — the lead is tagged organic, no conversion is
    uploaded and the table is left as it was; the answer is 200, or 500 "Lead
    with organic source could not be updated." when the CRM raises
    [RuntimeError]. *)
Theorem no_claimable_click_tags_organic ttl names env ev payload lead_id w :
  is_update_lead_request ev →
  conversion_type_of names ev = Ok MESSAGE_RECEIVED →
  is_conversion_adjustment ev = false →
  is_manual_import ev = false →
  decode_form ev = Ok payload →
  payload !! "leads[add][0][id]" = Some lead_id →
  query_exn env = None →
  (table w = ∅
   ∨ ∃ k it, newest (table w) = Some (k, it)
             ∧ it !! "matched" ≠ Some (PBool false)) →
  let run := lambda_handler ttl names env ev w in
  new_calls w run = [TableQuery; KommoUpdateLeadOrganic lead_id]
  ∧ table (world_of run) = table w
  ∧ (kommo_update_lead_exn env = None →
     result_of run
     = Ok (Some {| statusCode := 200;
                   message := "Lead updated with organic source." |}))
  ∧ (kommo_update_lead_exn env = Some RuntimeError →
     result_of run
     = Ok (Some {| statusCode := 500;
                   message :=
                     "Lead with organic source could not be updated." |})).
Proof.
  intros Hreq Hct Hadj Hman Hform Hlead Hq Hnone run. subst run.
  assert (Hitems : query (table w) = []).
  { destruct Hnone as [-> | (k & it & Hn & Hm)]; [reflexivity|].
    by apply (query_matched_newest _ k it). }
  rewrite (lambda_handler_update_lead _ _ _ _ _ Hreq Hct), Hadj, Hman.
  cbn [select_path]. rewrite bool_decide_eq_true_2 by done. cbn [run_path].
  rewrite (update_lead_handler_run _ _ _ _ _ _ Hq Hform Hlead), Hitems.
  rewrite update_lead_no_items. cbn [table calls].
  rewrite <- app_assoc, new_calls_app.
  repeat split; intros ->; reflexivity.
Qed.

Lemma no_claimable_click_tags_organic_witness :
  let ev := update_lead_request message_received_query (lead_added "42") in
  let w :=
    initial {[ 900 := beacon_item;
               1000 := <["matched" := PBool true]> newer_item ]} in
  let run := lambda_handler 15 [] (calm (seconds 300)) ev w in
  is_update_lead_request ev
  ∧ newest (table w) = Some (1000, <["matched" := PBool true]> newer_item)
  ∧ table w !! 900 ≫= (.!! "matched") = Some (PBool false)
  ∧ new_calls w run = [TableQuery; KommoUpdateLeadOrganic "42"]
  ∧ status_of run = Some 200.
Proof.
  intros ev w run.
  assert (Hreq : is_update_lead_request ev) by (split; reflexivity).
  assert (Hn : newest (table w)
               = Some (1000, <["matched" := PBool true]> newer_item))
    by reflexivity.
  assert (Hnone : table w = ∅
                  ∨ ∃ k it, newest (table w) = Some (k, it)
                            ∧ it !! "matched" ≠ Some (PBool false)).
  { right. exists 1000, (<["matched" := PBool true]> newer_item).
    split; [exact Hn | discriminate]. }
  destruct (no_claimable_click_tags_organic 15 [] (calm (seconds 300)) ev
              (lead_added "42") "42" w
              Hreq eq_refl eq_refl eq_refl eq_refl eq_refl eq_refl Hnone)
    as (Hcalls & _ & Hok & _).
  split; [exact Hreq|]. split; [exact Hn|]. split; [reflexivity|].
  split; [exact Hcalls|].
  unfold status_of. specialize (Hok eq_refl). unfold result_of in Hok.
  fold run in Hok. rewrite Hok. reflexivity.
Defined.

(** X16: the claiming update does not require the entry to exist. When the
    item handed to [update_lead] is no longer in the table (the store purged
    it after the query), the lead is still tagged cpc and answered 200, and
    the update leaves a new item under that key that holds the key attributes
    and [matched = True] but no click data. *)
Theorem claim_of_purged_entry_creates_item
    env it rest k gclid page_path ct lead_id w :
  it !! "expires_at" = Some (PInt k) →
  it !! "gclid" = Some gclid →
  it !! "page_path" = Some page_path →
  now env ≤ k * 1000000 →
  collaborators_answer env →
  table w !! k = None →
  let run := update_lead env (it :: rest) ct lead_id w in
  status_of run = Some 200
  ∧ KommoUpdateLeadCpc lead_id gclid (dict_get it "gbraid") page_path
    ∈ new_calls w run
  ∧ table (world_of run) !! k
    = Some (<["matched" := PBool true]> (key_item k))
  ∧ table (world_of run) !! k ≫= (.!! "gclid") = None.
Proof.
  intros Hexp Hg Hp Hlive (_ & _ & Hu & Hc & Hr & Ha & _) Hk run. subst run.
  rewrite (update_lead_matched env it rest k gclid page_path) by done.
  rewrite new_calls_app. cbn [world_of snd table].
  unfold update_item. rewrite Hk, lookup_insert_eq.
  split; [done|]. split; [|done].
  apply list_elem_of_In. cbn. tauto.
Qed.

Lemma claim_of_purged_entry_creates_item_witness :
  let run :=
    update_lead (calm (seconds 900)) [beacon_item] MESSAGE_RECEIVED "42"
      (initial ∅) in
  now (calm (seconds 900)) ≤ 900 * 1000000
  ∧ collaborators_answer (calm (seconds 900))
  ∧ status_of run = Some 200
  ∧ table (world_of run) = {[ 900 := <["matched" := PBool true]> (key_item 900) ]}.
Proof.
  intros run.
  assert (Hlive : now (calm (seconds 900)) ≤ 900 * 1000000) by (by vm_compute).
  assert (Hcalm : collaborators_answer (calm (seconds 900)))
    by (repeat split; reflexivity).
  destruct (claim_of_purged_entry_creates_item (calm (seconds 900)) beacon_item
              [] 900 (PStr "abc") (PStr "/p") MESSAGE_RECEIVED "42" (initial ∅)
              eq_refl eq_refl eq_refl Hlive Hcalm (lookup_empty 900))
    as (H200 & _).
  split; [exact Hlive|]. split; [exact Hcalm|]. split; [exact H200|].
  reflexivity.
Defined.

(** ** Status codes *)

Lemma answers_within_response codes code msg :
  code ∈ codes → answers_within codes (response code msg).
Proof. intros Hin w. exact Hin. Qed.

Lemma answers_within_ret_None codes : answers_within codes (ret None).
Proof. by intros w. Qed.

Lemma answers_within_raise codes e : answers_within codes (raise e).
Proof. by intros w. Qed.

Lemma answers_within_bind {A} codes (m : M A) (k : A → M (option Response)) :
  (∀ a, answers_within codes (k a)) → answers_within codes (bind m k).
Proof.
  intros Hk w. rewrite bind_apply.
  destruct (m w) as [[a|e] w1]; [apply Hk | done].
Qed.

Lemma answers_within_try codes (body handler : M (option Response)) :
  answers_within codes body → answers_within codes handler →
  answers_within codes (try_except_RuntimeError body handler).
Proof.
  intros Hbody Hhandler w. unfold try_except_RuntimeError.
  specialize (Hbody w). destruct (body w) as [[a|[]] w1]; try done.
  apply Hhandler.
Qed.

Lemma answers_within_weaken codes codes' m :
  codes ⊆ codes' → answers_within codes m → answers_within codes' m.
Proof.
  intros Hsub Hm w. specialize (Hm w).
  destruct (fst (m w)) as [[resp|]|]; [by apply Hsub | done | done].
Qed.

Ltac answers :=
  repeat first
    [ apply answers_within_ret_None
    | apply answers_within_raise
    | apply answers_within_response; set_solver
    | apply answers_within_try
    | apply answers_within_bind; intros
    | match goal with
      | |- answers_within _ (if ?b then _ else _) => destruct b
      | |- answers_within _ (match ?x with _ => _ end) => destruct x
      end ].

Lemma answers_within_click_log_handler ttl env ev :
  answers_within [200; 400; 500] (click_log_handler ttl env ev).
Proof. unfold click_log_handler, persist_clicklog_to_db. answers. Qed.

Lemma answers_within_run_path env p ev ct :
  answers_within [200; 500] (run_path env p ev ct).
Proof.
  destruct p; cbn [run_path];
    unfold upload_conversion_adjustment_handler, upload_conversion_handler,
      update_lead_handler, update_lead;
    answers.
Qed.

Lemma answers_within_status codes m w :
  answers_within codes m →
  status_of (m w) = None ∨ ∃ code, status_of (m w) = Some code ∧ code ∈ codes.
Proof.
  intros Hm. specialize (Hm w). unfold status_of.
  destruct (fst (m w)) as [[resp|]|]; [right; eauto | by left | by left].
Qed.

(** X17: whatever the event and whatever the collaborators do, a run of
    [lambda_handler] that answers at all answers 200, 400, 404 or 500. A
    click-log request is never answered 404; a lead-update request is never
    answered 400 or 404: it answers 200 or 500, or it ends without an answer
    (an uncaught exception, or [None]). *)
Theorem status_codes_of_lambda_handler ttl names env ev w :
  let status := status_of (lambda_handler ttl names env ev w) in
  (status = None ∨ ∃ code, status = Some code ∧ code ∈ [200; 400; 404; 500])
  ∧ (is_click_log_request ev →
     status = None ∨ ∃ code, status = Some code ∧ code ∈ [200; 400; 500])
  ∧ (is_update_lead_request ev →
     status = None ∨ ∃ code, status = Some code ∧ code ∈ [200; 500]).
Proof.
  intros status. subst status.
  assert (Hclick : is_click_log_request ev →
                   answers_within [200; 400; 500]
                     (lambda_handler ttl names env ev)).
  { intros H. rewrite (lambda_handler_click_log _ _ _ _ H).
    apply answers_within_click_log_handler. }
  assert (Hlead : is_update_lead_request ev →
                  answers_within [200; 500] (lambda_handler ttl names env ev)).
  { intros H.
    destruct (conversion_type_of names ev) as [ct|e] eqn:Hct.
    - rewrite (lambda_handler_update_lead _ _ _ _ _ H Hct).
      apply answers_within_run_path.
    - rewrite (lambda_handler_update_lead_raise _ _ _ _ _ H Hct).
      apply answers_within_raise. }
  split; [|split].
  - destruct (request_kinds ttl names env ev)
      as [[H _] | [[H _] | (_ & _ & Hrun)]].
    + apply answers_within_status.
      eapply answers_within_weaken; [|by apply Hclick].
      intros x Hx%list_elem_of_In. apply list_elem_of_In. cbn in *. tauto.
    + apply answers_within_status.
      eapply answers_within_weaken; [|by apply Hlead].
      intros x Hx%list_elem_of_In. apply list_elem_of_In. cbn in *. tauto.
    + rewrite Hrun. right. exists 404. split; [reflexivity|].
      apply list_elem_of_In. cbn. tauto.
  - intros H. by apply answers_within_status, Hclick.
  - intros H. by apply answers_within_status, Hlead.
Qed.

Lemma status_codes_of_lambda_handler_witness :
  let ev := update_lead_request message_received_query (lead_added "42") in
  let run :=
    lambda_handler 15 [] (failing OpUploadOfflineConversion RuntimeError
                            (seconds 300))
      ev (initial {[ 900 := beacon_item ]}) in
  is_update_lead_request ev
  ∧ (status_of run = None
     ∨ ∃ code, status_of run = Some code ∧ code ∈ [200; 500])
  ∧ status_of run = Some 500.
Proof.
  intros ev run.
  assert (Hreq : is_update_lead_request ev) by (split; reflexivity).
  destruct (status_codes_of_lambda_handler 15 []
              (failing OpUploadOfflineConversion RuntimeError (seconds 300))
              ev (initial {[ 900 := beacon_item ]})) as (_ & _ & Hlead).
  split; [exact Hreq|]. split; [exact (Hlead Hreq) | reflexivity].
Defined.

(** ** Attempts that overlap, attempts that follow each other *)

Lemma step_attempt_at sys i a a' w' :
  attempts sys !! i = Some a →
  attempt_step a (world sys) = (a', w') →
  step_attempt sys i = {| attempts := <[i := a']> (attempts sys); world := w' |}.
Proof. intros Hi Hstep. unfold step_attempt. by rewrite Hi, Hstep. Qed.

Lemma attempt_step_started env ct ev w :
  query_exn env = None →
  attempt_step (Started env ct ev) w
  = (Queried env ct ev (query (table w)),
     {| table := table w; calls := calls w ++ [TableQuery] |}).
Proof. intros Hq. cbn [attempt_step]. by rewrite (table_query_run _ _ Hq). Qed.

(** The second step of an attempt whose query returned a pending, live
    entry: it claims, whatever the table holds by now. *)
Lemma attempt_step_queried_live
    env ct ev payload lead_id it rest k gclid page_path w :
  it !! "expires_at" = Some (PInt k) →
  it !! "gclid" = Some gclid →
  it !! "page_path" = Some page_path →
  now env ≤ k * 1000000 →
  collaborators_answer env →
  decode_form ev = Ok payload →
  payload !! "leads[add][0][id]" = Some lead_id →
  attempt_step (Queried env ct ev (it :: rest)) w
  = (Finished (Ok (Some {| statusCode := 200;
                           message := "Lead updated with matched gclid." |})),
     {| table := update_item k (table w);
        calls := calls w
                 ++ [TableUpdateItem (PInt k);
                     KommoUpdateLeadCpc lead_id gclid (dict_get it "gbraid")
                       page_path;
                     KommoConstructRawLead lead_id;
                     AdsUploadOfflineConversion lead_id ct] |}).
Proof.
  intros Hexp Hg Hp Hlive (_ & _ & Hu & Hc & Hr & Ha & _) Hform Hlead.
  cbn [attempt_step].
  rewrite (extract_incoming_lead_id_run _ _ _ Hform Hlead), bind_ret.
  by rewrite (update_lead_matched env it rest k gclid page_path).
Qed.

(** Rewrites the step of a system that is itself not a step. *)
Ltac step_innermost i a H :=
  match goal with
  | |- context [step_attempt ?s i] =>
      lazymatch s with
      | context [step_attempt] => fail
      | _ => rewrite (step_attempt_at s i a _ _ eq_refl H)
      end
  end.

(** X18: two match attempts that have both queried before either claims do
    both claim. On any table whose query returns a live entry, with every
    collaborator answering, both attempts answer 200 "Lead updated with
    matched gclid.", both leads are tagged cpc with the gclid of that one
    entry, and two conversions are uploaded. *)
Theorem overlapping_attempts_both_claim
    env1 env2 ct1 ct2 ev1 ev2 payload1 payload2 lead1 lead2
    it k gclid page_path w :
  query (table w) = [it] →
  it !! "expires_at" = Some (PInt k) →
  it !! "gclid" = Some gclid →
  it !! "page_path" = Some page_path →
  now env1 ≤ k * 1000000 →
  now env2 ≤ k * 1000000 →
  collaborators_answer env1 →
  collaborators_answer env2 →
  decode_form ev1 = Ok payload1 →
  payload1 !! "leads[add][0][id]" = Some lead1 →
  decode_form ev2 = Ok payload2 →
  payload2 !! "leads[add][0][id]" = Some lead2 →
  let sys :=
    run_schedule [0; 1; 0; 1]%nat
      {| attempts := [Started env1 ct1 ev1; Started env2 ct2 ev2];
         world := w |} in
  let matched_answer :=
    Finished (Ok (Some {| statusCode := 200;
                          message := "Lead updated with matched gclid." |})) in
  attempts sys = [matched_answer; matched_answer]
  ∧ new_calls w (Ok (), world sys)
    = [TableQuery; TableQuery;
       TableUpdateItem (PInt k);
       KommoUpdateLeadCpc lead1 gclid (dict_get it "gbraid") page_path;
       KommoConstructRawLead lead1;
       AdsUploadOfflineConversion lead1 ct1;
       TableUpdateItem (PInt k);
       KommoUpdateLeadCpc lead2 gclid (dict_get it "gbraid") page_path;
       KommoConstructRawLead lead2;
       AdsUploadOfflineConversion lead2 ct2].
Proof.
  intros Hitems Hexp Hg Hp Hlive1 Hlive2 Hcalm1 Hcalm2 Hf1 Hl1 Hf2 Hl2
    sys matched_answer.
  pose proof Hcalm1 as (Hq1 & _). pose proof Hcalm2 as (Hq2 & _).
  subst sys. unfold run_schedule. cbn [foldl].
  step_innermost 0%nat (Started env1 ct1 ev1)
    (attempt_step_started env1 ct1 ev1 w Hq1).
  cbn [attempts world list_insert].
  step_innermost 1%nat (Started env2 ct2 ev2)
    (attempt_step_started env2 ct2 ev2
       {| table := table w; calls := calls w ++ [TableQuery] |} Hq2).
  cbn [attempts world list_insert table]. rewrite Hitems.
  step_innermost 0%nat (Queried env1 ct1 ev1 [it])
    (attempt_step_queried_live env1 ct1 ev1 payload1 lead1 it [] k gclid
       page_path
       {| table := table w; calls := (calls w ++ [TableQuery]) ++ [TableQuery] |}
       Hexp Hg Hp Hlive1 Hcalm1 Hf1 Hl1).
  cbn [attempts world list_insert table calls].
  match goal with
  | |- context [step_attempt {| attempts := _; world := ?w3 |} 1%nat] =>
      step_innermost 1%nat (Queried env2 ct2 ev2 [it])
        (attempt_step_queried_live env2 ct2 ev2 payload2 lead2 it [] k gclid
           page_path w3 Hexp Hg Hp Hlive2 Hcalm2 Hf2 Hl2)
  end.
  cbn [attempts world list_insert calls].
  split; [reflexivity|].
  rewrite <- !app_assoc. cbn [app]. by rewrite new_calls_app.
Qed.

Lemma overlapping_attempts_both_claim_witness :
  let ev lead_id :=
    update_lead_request message_received_query (lead_added lead_id) in
  let w := initial {[ 900 := beacon_item ]} in
  let sys :=
    run_schedule [0; 1; 0; 1]%nat
      {| attempts := [Started (calm (seconds 300)) MESSAGE_RECEIVED (ev "42");
                      Started (calm (seconds 301)) MESSAGE_RECEIVED (ev "43")];
         world := w |} in
  query (table w) = [beacon_item]
  ∧ now (calm (seconds 300)) ≤ 900 * 1000000
  ∧ now (calm (seconds 301)) ≤ 900 * 1000000
  ∧ attempts sys
    = [Finished (Ok (Some {| statusCode := 200;
                             message := "Lead updated with matched gclid." |}));
       Finished (Ok (Some {| statusCode := 200;
                             message := "Lead updated with matched gclid." |}))].
Proof.
  intros ev w sys.
  assert (H1 : now (calm (seconds 300)) ≤ 900 * 1000000) by (by vm_compute).
  assert (H2 : now (calm (seconds 301)) ≤ 900 * 1000000) by (by vm_compute).
  assert (Hcalm : ∀ t, collaborators_answer (calm t))
    by (intros t; repeat split; reflexivity).
  destruct (overlapping_attempts_both_claim (calm (seconds 300))
              (calm (seconds 301)) MESSAGE_RECEIVED MESSAGE_RECEIVED
              (ev "42") (ev "43") (lead_added "42") (lead_added "43")
              "42" "43" beacon_item 900 (PStr "abc") (PStr "/p") w
              eq_refl eq_refl eq_refl eq_refl H1 H2 (Hcalm _) (Hcalm _)
              eq_refl eq_refl eq_refl eq_refl) as [Hattempts _].
  split; [reflexivity|]. split; [exact H1|]. split; [exact H2|].
  exact Hattempts.
Defined.

Lemma second_attempt_in_sequence_is_organic_witness :
  let ev lead_id :=
    update_lead_request message_received_query (lead_added lead_id) in
  let w := initial {[ 900 := beacon_item ]} in
  let first :=
    update_lead_handler (calm (seconds 300)) MESSAGE_RECEIVED (ev "42") w in
  let second :=
    update_lead_handler (calm (seconds 301)) MESSAGE_RECEIVED (ev "43")
      (world_of first) in
  newest (table w) = Some (900, beacon_item)
  ∧ now (calm (seconds 300)) ≤ 900 * 1000000
  ∧ result_of first
    = Ok (Some {| statusCode := 200;
                  message := "Lead updated with matched gclid." |})
  ∧ result_of second
    = Ok (Some {| statusCode := 200;
                  message := "Lead updated with organic source." |}).
Proof.
  intros ev w first second.
  assert (Hn : newest (table w) = Some (900, beacon_item)) by reflexivity.
  assert (Hlive : now (calm (seconds 300)) ≤ 900 * 1000000) by (by vm_compute).
  assert (Hcalm : ∀ t, collaborators_answer (calm t))
    by (intros t; repeat split; reflexivity).
  destruct (second_attempt_in_sequence_is_organic (calm (seconds 300))
              (calm (seconds 301)) MESSAGE_RECEIVED (ev "42") (ev "43")
              (lead_added "42") (lead_added "43") "42" "43" 900 beacon_item
              (PStr "abc") (PStr "/p") w
              Hn eq_refl eq_refl eq_refl eq_refl Hlive (Hcalm _) (Hcalm _)
              eq_refl eq_refl eq_refl eq_refl) as [Hfirst Hsecond].
  split; [exact Hn|]. split; [exact Hlive|].
  split; [exact Hfirst | exact Hsecond].
Defined.

(** ** Click logs that cannot be read *)

(** X20: a click-log request whose body is not a JSON object — no body at
    all, text that [json.loads] rejects, or JSON that is not an object — ends
    in an uncaught exception; it is not answered 400, and nothing is written
    or called. *)
Theorem unreadable_click_log_raises ttl names env ev w :
  is_click_log_request ev →
  (∀ b, json_loads_body ev ≠ Ok (JObject b)) →
  ∃ e, lambda_handler ttl names env ev w = (Raise e, w)
       ∧ e = match json_loads_body ev with
             | Raise e' => e'
             | Ok _ => AttributeError
             end.
Proof.
  intros Hreq Hnot. rewrite (lambda_handler_click_log _ _ _ _ Hreq).
  unfold click_log_handler.
  destruct (json_loads_body ev) as [[b|]|e] eqn:Hb.
  - by destruct (Hnot b).
  - by exists AttributeError.
  - by exists e.
Qed.

Lemma unreadable_click_log_raises_witness :
  let ev := click_request (BodyText (Ok JOther) (Raise OtherException)) in
  is_click_log_request ev
  ∧ (∀ b, json_loads_body ev ≠ Ok (JObject b))
  ∧ ∃ e, lambda_handler 15 [] (calm (seconds 0)) ev (initial ∅)
         = (Raise e, initial ∅)
         ∧ e = AttributeError.
Proof.
  intros ev.
  assert (Hreq : is_click_log_request ev) by (split; reflexivity).
  assert (Hnot : ∀ b, json_loads_body ev ≠ Ok (JObject b))
    by (intros b; discriminate).
  split; [exact Hreq|]. split; [exact Hnot|].
  exact (unreadable_click_log_raises 15 [] (calm (seconds 0)) ev (initial ∅)
           Hreq Hnot).
Defined.
